(** * Better Posture: the reminder clock, the interval controller and the
      settings store of [main.go], embedded in Rocq.

    The program is a tray utility written in Go.  Its logic lives in four
    places of [main.go]: [formatDuration], [loadConfig]/[saveConfig], the
    closure [updateInterval] and the [select] loop started by [onReady].
    Each of them is transcribed below as a function over explicit state;
    the calls into the operating system (file system, toast, message box,
    tray menu) are recorded as events of a trace, in program order.

    Conventions.
    - Go's [int], [int64] and [time.Duration] are 64-bit two's complement
      integers: a [Z] together with the wrap-around [Int64.wrap] applied
      where the Go operator can overflow.
    - A [time.Time] is the number of nanoseconds since the Unix epoch, as an
      unbounded [Z] (the range of [time.Time] is far wider than [int64]).
    - Values that come from outside the program (the clock, the outcome of
      a toast, the outcome of a file write) are arguments of the functions
      that consume them; the JSON codec of the standard library is a class
      the program is parametrised by.
    - The loop and the delivery goroutine run concurrently in the source.
      Here a tick, a click and each step of a goroutine are atomic, and a
      schedule ([run]) interleaves them in any order. *)

From Stdlib Require Import ZArith List String Ascii Bool Lia DecimalString.
From Stdlib Require Import DecimalPos DecimalZ.
Import ListNotations.

Local Open Scope string_scope.
Local Open Scope Z_scope.
Local Open Scope list_scope.

(** ** 64-bit integers *)

Module Int64.

Definition min_int : Z := - 2 ^ 63.
Definition max_int : Z := 2 ^ 63 - 1.

Definition in_range (z : Z) : Prop := min_int <= z <= max_int.

(** Two's complement reduction of a mathematical result. *)
Definition wrap (z : Z) : Z := (z + 2 ^ 63) mod 2 ^ 64 - 2 ^ 63.

Definition add (a b : Z) : Z := wrap (a + b).
Definition sub (a b : Z) : Z := wrap (a - b).
Definition mul (a b : Z) : Z := wrap (a * b).
Definition neg (a : Z) : Z := wrap (- a).

(** The conversion [uint64(x)]. *)
Definition to_uint64 (z : Z) : Z := z mod 2 ^ 64.

(** Clipping to the representable range, as [Time.Sub] does. *)
Definition saturate (z : Z) : Z :=
  if z <? min_int then min_int
  else if max_int <? z then max_int
  else z.

End Int64.

(** ** The part of package [time] the program uses *)

Module GoTime.

Definition Nanosecond : Z := 1.
Definition Second : Z := 1000000000 * Nanosecond.
Definition Minute : Z := 60 * Second.

Definition minDuration : Z := Int64.min_int.
Definition maxDuration : Z := Int64.max_int.

(** [lessThanHalf x y] reports [uint64(x)+uint64(x) < uint64(y)]. *)
Definition lessThanHalf (x y : Z) : bool :=
  Int64.to_uint64 (Int64.to_uint64 x + Int64.to_uint64 x)
    <? Int64.to_uint64 y.

(** [Duration.Round]: the nearest multiple of [m], halfway values away
    from zero; the extreme duration when that multiple is out of range. *)
Definition Round (d m : Z) : Z :=
  if m <=? 0 then d
  else
    let r := Z.rem d m in
    if d <? 0 then
      let r := Int64.neg r in
      if lessThanHalf r m then Int64.add d r
      else
        let d1 := Int64.add (Int64.sub d m) r in
        if d1 <? d then d1 else minDuration
    else
      if lessThanHalf r m then Int64.sub d r
      else
        let d1 := Int64.sub (Int64.add d m) r in
        if d <? d1 then d1 else maxDuration.

(** [int(d.Seconds())].  [Seconds] is
    [float64(d/Second) + float64(d%Second)/1e9]; the conversion to [int]
    drops the fraction.  On the values [Round _ Second] returns (whole
    seconds, or one of the two extreme durations, whose fraction is
    0.85...) the float64 sum has the integral part [d/Second]. *)
Definition SecondsInt (d : Z) : Z := Z.quot d Second.

(** [time.Unix(0, nsec)]. *)
Definition Unix0 (nsec : Z) : Z := nsec.

(** [t.UnixNano()]. *)
Definition UnixNano (t : Z) : Z := Int64.wrap t.

(** [t.Add(d)]. *)
Definition Add (t d : Z) : Z := t + d.

(** [t.Sub(u)]: the difference, clipped to the range of [Duration]. *)
Definition Sub (t u : Z) : Z := Int64.saturate (t - u).

(** [time.Since(t)] and [time.Until(t)] when the clock reads [now]. *)
Definition Since (now t : Z) : Z := Sub now t.
Definition Until (now t : Z) : Z := Sub t now.

(** [time.Duration(n) * time.Minute]. *)
Definition Minutes (n : Z) : Z := Int64.mul n Minute.

End GoTime.

(** ** Formatting *)

(** The verb [%d] of [fmt.Sprintf]. *)
Definition itoa (z : Z) : string := NilZero.string_of_int (Z.to_int z).

(** [fmt.Sprintf("%dh %dm %ds", h, m, s)]. *)
Definition sprintf_hms (h m s : Z) : string :=
  (itoa h ++ "h " ++ itoa m ++ "m " ++ itoa s ++ "s")%string.

Definition formatDuration (d : Z) : string :=
  let d := GoTime.Round d GoTime.Second in
  let totalSeconds := GoTime.SecondsInt d in
  let totalSeconds := if totalSeconds <? 0 then 0 else totalSeconds in
  let h := Z.quot totalSeconds 3600 in
  let m := Z.rem (Z.quot totalSeconds 60) 60 in
  let s := Z.rem totalSeconds 60 in
  sprintf_hms h m s.

(** ** Data model *)

Definition defaultInterval : Z := 3.
Definition defaultReminderTitle : string := "Posture Reminder".
Definition defaultReminderMessage : string := "Time to check your posture!".
Definition minInterval : Z := 1.
Definition maxInterval : Z := 24 * 60.

Record Config : Type := mkConfig {
  IntervalMinutes : Z;
  ReminderTitle : string;
  ReminderMessage : string
}.

Definition with_IntervalMinutes (n : Z) (c : Config) : Config :=
  mkConfig n (ReminderTitle c) (ReminderMessage c).
Definition with_ReminderTitle (t : string) (c : Config) : Config :=
  mkConfig (IntervalMinutes c) t (ReminderMessage c).
Definition with_ReminderMessage (m : string) (c : Config) : Config :=
  mkConfig (IntervalMinutes c) (ReminderTitle c) m.

(** The invariant of the data model on a configuration. *)
Definition config_ok (c : Config) : Prop :=
  minInterval <= IntervalMinutes c <= maxInterval
  /\ ReminderTitle c <> "" /\ ReminderMessage c <> "".

(** The settings file as the program sees it: [settings] is what
    [os.ReadFile(settingsPath())] returns ([None] when it returns an error,
    the file does not exist for instance), [writable] tells whether
    [os.WriteFile(settingsPath(), ...)] succeeds.  The directory that
    [settingsPath] creates on the way is not modelled. *)
Record Disk : Type := mkDisk {
  settings : option string;
  writable : bool
}.

(** The two menu entries whose title the program rewrites. *)
Inductive Label : Type := mIntervalLabel | mCountdown.

(** The menu entries of the [select] loop. *)
Inductive Command : Type :=
| mPlus1m | mMinus1m | mPlus5m | mMinus5m
| mPlus30m | mMinus30m | mPlus1h | mMinus1h
| mResetDefault | mInfo | mQuit.

(** The [fmt.Printf] sites, one constructor each. *)
Inductive Warning : Type :=
| WarnDefaultNotWritten   (* "Warning: could not write default config" *)
| WarnInvalidJSON         (* "Warning: invalid config JSON" *)
| WarnAdjustedNotSaved    (* "Warning: could not save adjusted config" *)
| WarnNotSaved            (* "Warning: could not save config" *)
| WarnToast.              (* "Error showing toast notification" *)

(** What the program does to the outside, in program order. *)
Inductive Event : Type :=
| EvPrintf (w : Warning)
| EvWriteFile (data : string)
| EvSetTooltip (text : string)
| EvSetTitle (item : Label) (text : string)
| EvStoreShowing (b : bool)
| EvStoreLast (nsec : Z)
| EvGo (tit msg : string)
| EvToastPush (tit msg : string)
| EvMessageBox (tit msg : string)
| EvGoAbout
| EvQuit.

Definition Trace : Type := list Event.

(** The error values of [saveConfig]. *)
Inductive SaveError : Type := ErrMarshal | ErrWrite.

(** The variables [onReady] shares between the loop, [updateInterval] and
    the delivery goroutine, with the disk. *)
Record App : Type := mkApp {
  cfg : Config;
  lastTriggeredUnix : Z;
  isMessageShowing : bool;
  disk : Disk
}.

(** ** A state and trace monad *)

Definition IO (S A : Type) : Type := S -> A * S * Trace.

Definition ret {S A : Type} (a : A) : IO S A := fun s => (a, s, []).

Definition bind {S A B : Type} (m : IO S A) (k : A -> IO S B) : IO S B :=
  fun s =>
    let '(a, s1, t1) := m s in
    let '(b, s2, t2) := k a s1 in
    (b, s2, t1 ++ t2).

Definition emit {S : Type} (e : Event) : IO S unit := fun s => (tt, s, [e]).
Definition gets {S A : Type} (f : S -> A) : IO S A := fun s => (f s, s, []).
Definition modify {S : Type} (f : S -> S) : IO S unit :=
  fun s => (tt, f s, []).

(** A computation on the disk, run inside the application state. *)
Definition onDisk {A : Type} (m : IO Disk A) : IO App A :=
  fun st =>
    let '(a, dk, t) := m (disk st) in
    (a, mkApp (cfg st) (lastTriggeredUnix st) (isMessageShowing st) dk, t).

Notation "x <- m ;; k" := (bind m (fun x => k))
  (at level 61, m at next level, right associativity).
Notation "m ;;; k" := (bind m (fun _ => k))
  (at level 61, right associativity).

Definition result_of {S A : Type} (r : A * S * Trace) : A := fst (fst r).
Definition state_of {S A : Type} (r : A * S * Trace) : S := snd (fst r).
Definition trace_of {S A : Type} (r : A * S * Trace) : Trace := snd r.

Definition store_cfg (c : Config) (st : App) : App :=
  mkApp c (lastTriggeredUnix st) (isMessageShowing st) (disk st).
Definition store_last (nsec : Z) (st : App) : App :=
  mkApp (cfg st) nsec (isMessageShowing st) (disk st).
Definition store_showing (b : bool) (st : App) : App :=
  mkApp (cfg st) (lastTriggeredUnix st) b (disk st).

(** The number of goroutines a trace starts for a delivery. *)
Fixpoint dispatches (t : Trace) : nat :=
  match t with
  | [] => 0%nat
  | EvGo _ _ :: t' => S (dispatches t')
  | _ :: t' => dispatches t'
  end.

(** ** The program *)

Definition baseTooltip : string := "✨Sit smart. Move often. Feel better.".

(** [encoding/json] belongs to the Go standard library, not to the program:
    the program is read against any codec.  [json_Unmarshal data] is
    [Some cfg] when [json.Unmarshal(data, &cfg)] returns no error and leaves
    [cfg] (which starts as the zero [Config]) with that value, [None] when
    it returns an error.  [json_MarshalIndent cfg] is the text
    [json.MarshalIndent(cfg, "", "  ")] produces, [None] for an error. *)
Class JSONCodec : Type := {
  json_Unmarshal : string -> option Config;
  json_MarshalIndent : Config -> option string
}.

Section Program.

Context {codec : JSONCodec}.

(** *** Settings store *)

Definition os_ReadFile : IO Disk (option string) := gets settings.

(** [os.WriteFile]; the result is [true] when it returns an error. *)
Definition os_WriteFile (data : string) : IO Disk bool :=
  fun dk =>
    if writable dk
    then (false, mkDisk (Some data) (writable dk), [EvWriteFile data])
    else (true, dk, [EvWriteFile data]).

Definition saveConfig (cfg : Config) : IO Disk (option SaveError) :=
  match json_MarshalIndent cfg with
  | None => ret (Some ErrMarshal)
  | Some data =>
      failed <- os_WriteFile data ;;
      if failed then ret (Some ErrWrite) else ret None
  end.

(** [if saveErr != nil { fmt.Printf(...) }]. *)
Definition warn_on {S : Type} (saveErr : option SaveError) (w : Warning)
  : IO S unit :=
  match saveErr with
  | Some _ => emit (EvPrintf w)
  | None => ret tt
  end.

Definition defaultCfg : Config :=
  mkConfig defaultInterval defaultReminderTitle defaultReminderMessage.

(** The four repairs of [loadConfig], each with the [needsSave] flag. *)
Definition sanitize (cfg : Config) : Config * bool :=
  let needsSave := false in
  let '(cfg, needsSave) :=
    if IntervalMinutes cfg <? minInterval
    then (with_IntervalMinutes minInterval cfg, true)
    else (cfg, needsSave) in
  let '(cfg, needsSave) :=
    if maxInterval <? IntervalMinutes cfg
    then (with_IntervalMinutes maxInterval cfg, true)
    else (cfg, needsSave) in
  let '(cfg, needsSave) :=
    if String.eqb (ReminderTitle cfg) ""
    then (with_ReminderTitle defaultReminderTitle cfg, true)
    else (cfg, needsSave) in
  let '(cfg, needsSave) :=
    if String.eqb (ReminderMessage cfg) ""
    then (with_ReminderMessage defaultReminderMessage cfg, true)
    else (cfg, needsSave) in
  (cfg, needsSave).

Definition loadConfig : IO Disk Config :=
  data <- os_ReadFile ;;
  match data with
  | None =>
      saveErr <- saveConfig defaultCfg ;;
      warn_on saveErr WarnDefaultNotWritten ;;;
      ret defaultCfg
  | Some data =>
      match json_Unmarshal data with
      | None =>
          emit (EvPrintf WarnInvalidJSON) ;;;
          saveErr <- saveConfig defaultCfg ;;
          warn_on saveErr WarnDefaultNotWritten ;;;
          ret defaultCfg
      | Some cfg =>
          let '(cfg, needsSave) := sanitize cfg in
          (if needsSave : bool
           then saveErr <- saveConfig cfg ;;
                warn_on saveErr WarnAdjustedNotSaved
           else ret tt) ;;;
          ret cfg
      end
  end.

(** *** Notification gateway *)

(** [showToast]; [push_fails] tells whether [notification.Push()]
    returns an error, and is the error the function returns. *)
Definition showToast (push_fails : bool) (title message : string)
  : IO App bool :=
  emit (EvToastPush title message) ;;;
  (if push_fails then emit (EvPrintf WarnToast) else ret tt) ;;;
  ret push_fails.

Definition showMessage (title message : string) : IO App unit :=
  emit (EvMessageBox title message).

Definition atomic_store_showing (b : bool) : IO App unit :=
  modify (store_showing b) ;;; emit (EvStoreShowing b).

Definition atomic_store_last (nsec : Z) : IO App unit :=
  modify (store_last nsec) ;;; emit (EvStoreLast nsec).

(** The goroutine a trigger starts; [done] is the clock at its last
    statement. *)
Definition deliver (push_fails : bool) (done : Z) (tit msg : string)
  : IO App unit :=
  err <- showToast push_fails tit msg ;;
  (if err : bool then showMessage tit msg else ret tt) ;;;
  atomic_store_showing false ;;;
  atomic_store_last (GoTime.UnixNano done).

(** *** Interval controller *)

Definition updateInterval (newInterval : Z) : IO App unit :=
  let newInterval :=
    if newInterval <? minInterval then minInterval else newInterval in
  let newInterval :=
    if maxInterval <? newInterval then maxInterval else newInterval in
  modify (fun st => store_cfg (with_IntervalMinutes newInterval (cfg st)) st) ;;;
  c <- gets cfg ;;
  saveErr <- onDisk (saveConfig c) ;;
  warn_on saveErr WarnNotSaved ;;;
  c <- gets cfg ;;
  let d := GoTime.Minutes (IntervalMinutes c) in
  emit (EvSetTitle mIntervalLabel ("Interval: " ++ formatDuration d)%string).

(** *** Reminder clock *)

Definition show_base : IO App unit :=
  emit (EvSetTooltip baseTooltip) ;;;
  emit (EvSetTitle mCountdown "Countdown:").

(** The first half of a tick; [now] is the clock [time.Until] reads. *)
Definition tick_display (now : Z) : IO App unit :=
  showing <- gets isMessageShowing ;;
  if showing : bool then show_base
  else
    intervalMinutes <- gets (fun st => IntervalMinutes (cfg st)) ;;
    lastNs <- gets lastTriggeredUnix ;;
    let last := GoTime.Unix0 lastNs in
    let nextTrigger := GoTime.Add last (GoTime.Minutes intervalMinutes) in
    let remaining := GoTime.Until now nextTrigger in
    if remaining <=? 0 then show_base
    else
      let countdown := formatDuration remaining in
      emit (EvSetTooltip (baseTooltip ++ " (" ++ countdown ++ ")")%string) ;;;
      emit (EvSetTitle mCountdown ("Countdown: " ++ countdown)%string).

(** The second half of a tick; [now] is the clock [time.Since] reads.  The
    flag is loaded here before the test; in the source [&&] loads it only
    when the first operand holds, and a load changes nothing. *)
Definition tick_trigger (now : Z) : IO App unit :=
  lastNs <- gets lastTriggeredUnix ;;
  let last := GoTime.Unix0 lastNs in
  intervalMinutes <- gets (fun st => IntervalMinutes (cfg st)) ;;
  showing <- gets isMessageShowing ;;
  if (GoTime.Minutes intervalMinutes <=? GoTime.Since now last)
     && negb showing
  then
    atomic_store_showing true ;;;
    title <- gets (fun st => ReminderTitle (cfg st)) ;;
    message <- gets (fun st => ReminderMessage (cfg st)) ;;
    emit (EvGo title message)
  else ret tt.

Definition tick (now_display now_trigger : Z) : IO App unit :=
  tick_display now_display ;;; tick_trigger now_trigger.

(** *** The [select] loop *)

Definition click (c : Command) : IO App unit :=
  match c with
  | mPlus1m =>
      n <- gets (fun st => IntervalMinutes (cfg st)) ;;
      updateInterval (Int64.add n 1)
  | mMinus1m =>
      n <- gets (fun st => IntervalMinutes (cfg st)) ;;
      updateInterval (Int64.sub n 1)
  | mPlus5m =>
      n <- gets (fun st => IntervalMinutes (cfg st)) ;;
      updateInterval (Int64.add n 5)
  | mMinus5m =>
      n <- gets (fun st => IntervalMinutes (cfg st)) ;;
      updateInterval (Int64.sub n 5)
  | mPlus30m =>
      n <- gets (fun st => IntervalMinutes (cfg st)) ;;
      updateInterval (Int64.add n 30)
  | mMinus30m =>
      n <- gets (fun st => IntervalMinutes (cfg st)) ;;
      updateInterval (Int64.sub n 30)
  | mPlus1h =>
      n <- gets (fun st => IntervalMinutes (cfg st)) ;;
      updateInterval (Int64.add n 60)
  | mMinus1h =>
      n <- gets (fun st => IntervalMinutes (cfg st)) ;;
      updateInterval (Int64.sub n 60)
  | mResetDefault => updateInterval defaultInterval
  | mInfo => emit EvGoAbout
  | mQuit => emit EvQuit
  end.

(** What the scheduler lets happen, one step at a time: a tick or a click
    in the loop, or the next step of a delivery goroutine, whose three
    steps are the notification (toast, then message box on an error), the
    store that clears [isMessageShowing] and the store of the clock in
    [lastTriggeredUnix]. *)
Inductive Input : Type :=
| Tick (now_display now_trigger : Z)
| Click (c : Command)
| DeliveryShown (push_fails : bool) (tit msg : string)
| DeliveryCleared
| DeliveryStamped (done : Z).

Definition handle (i : Input) : IO App unit :=
  match i with
  | Tick n1 n2 => tick n1 n2
  | Click c => click c
  | DeliveryShown push_fails tit msg =>
      err <- showToast push_fails tit msg ;;
      if err : bool then showMessage tit msg else ret tt
  | DeliveryCleared => atomic_store_showing false
  | DeliveryStamped done => atomic_store_last (GoTime.UnixNano done)
  end.

(** A delivery that runs without a tick or a click in between. *)
Definition delivery (push_fails : bool) (done : Z) (tit msg : string)
  : list Input :=
  [DeliveryShown push_fails tit msg; DeliveryCleared; DeliveryStamped done].

(** The effects of a schedule.  The source loop returns at a click on
    Quit; [run] does not stop there, so the runs of the program are the
    schedules with no tick and no click after a click on Quit, some of the
    schedules [run] takes. *)
Fixpoint run (inputs : list Input) : IO App unit :=
  match inputs with
  | [] => ret tt
  | i :: rest => handle i ;;; run rest
  end.

(** The state [onReady] hands to the loop when the clock reads [now]: the
    loaded configuration, the start time and a cleared flag.  Writing the
    resource files and building the menu do not touch that state and are
    left out. *)
Definition onReady (now : Z) : IO Disk App :=
  c <- loadConfig ;;
  dk <- gets (fun dk => dk) ;;
  ret (mkApp c (GoTime.UnixNano now) false dk).

End Program.

(** ** Reference definitions, in the words of the specification *)

(** The whole number of seconds nearest to [d] nanoseconds, a halfway value
    going away from zero. *)
Definition nearest_second (d : Z) : Z :=
  Z.sgn d * ((Z.abs d + 500000000) / 1000000000).

(** "hours = total seconds/3600, minutes = (total seconds/60) mod 60,
    seconds = total seconds mod 60; negative durations clamp to zero". *)
Definition spec_formatDuration (d : Z) : string :=
  let total := Z.max 0 (nearest_second d) in
  sprintf_hms (total / 3600) ((total / 60) mod 60) (total mod 60).

(** The first duration whose nearest second is past the last [Duration]:
    9223372036.5 seconds. *)
Definition round_limit : Z := 9223372036500000000.

(** "clamped to [1, 1440]". *)
Definition clamp_interval (n : Z) : Z :=
  Z.max minInterval (Z.min maxInterval n).

(** "now - lastTriggeredAt >= intervalMinutes". *)
Definition due (st : App) (now : Z) : Prop :=
  IntervalMinutes (cfg st) * GoTime.Minute <= now - lastTriggeredUnix st.

(** The minutes a menu entry adds to the interval. *)
Definition command_delta (c : Command) : option Z :=
  match c with
  | mPlus1m => Some 1 | mMinus1m => Some (-1)
  | mPlus5m => Some 5 | mMinus5m => Some (-5)
  | mPlus30m => Some 30 | mMinus30m => Some (-30)
  | mPlus1h => Some 60 | mMinus1h => Some (-60)
  | mResetDefault | mInfo | mQuit => None
  end.

(** An event that puts something in front of the user. *)
Definition is_notification (e : Event) : bool :=
  match e with
  | EvToastPush _ _ | EvMessageBox _ _ => true
  | _ => false
  end.

(** The seconds [formatDuration] works with: the nearest second, clipped
    below at zero and above at the seconds of the last [Duration]. *)
Definition shown_seconds (d : Z) : Z :=
  Z.max 0 (Z.min 9223372036 ((d + 500000000) / 1000000000)).

(** What [loadConfig] puts in place of an empty text. *)
Definition repaired_title (c : Config) : string :=
  if String.eqb (ReminderTitle c) "" then defaultReminderTitle
  else ReminderTitle c.

Definition repaired_message (c : Config) : string :=
  if String.eqb (ReminderMessage c) "" then defaultReminderMessage
  else ReminderMessage c.

(** The label [updateInterval] shows at the end. *)
Definition interval_label (n : Z) : Event :=
  EvSetTitle mIntervalLabel
    ("Interval: " ++ formatDuration (GoTime.Minutes n))%string.

(** The events of the display half of a tick only touch the tooltip and the
    countdown entry. *)
Definition is_display (e : Event) : bool :=
  match e with
  | EvSetTooltip _ | EvSetTitle mCountdown _ => true
  | _ => false
  end.

(** The number of times a trace shows a toast, and a message box. *)
Definition count_event (p : Event -> bool) (t : Trace) : nat :=
  List.length (filter p t).

Definition is_toast (e : Event) : bool :=
  match e with EvToastPush _ _ => true | _ => false end.

Definition is_message_box (e : Event) : bool :=
  match e with EvMessageBox _ _ => true | _ => false end.

Definition is_store_last (e : Event) : bool :=
  match e with EvStoreLast _ => true | _ => false end.

(** ** Data for the worked examples *)

Module Sample.

Definition quote : string := String (ascii_of_nat 34) EmptyString.
Definition newline : string := String (ascii_of_nat 10) EmptyString.

Definition quoted (s : string) : string := (quote ++ s ++ quote)%string.

(** The text [json.MarshalIndent] gives a configuration whose title and
    message need no escaping. *)
Definition text_of (c : Config) : string :=
  ("{" ++ newline
   ++ "  " ++ quoted "interval_minutes" ++ ": "
   ++ itoa (IntervalMinutes c) ++ "," ++ newline
   ++ "  " ++ quoted "reminder_title" ++ ": "
   ++ quoted (ReminderTitle c) ++ "," ++ newline
   ++ "  " ++ quoted "reminder_message" ++ ": "
   ++ quoted (ReminderMessage c) ++ newline
   ++ "}")%string.

(** A file with nothing but an interval far out of range. *)
Definition file_99999 : string :=
  ("{" ++ quoted "interval_minutes" ++ ": 99999}")%string.

Definition stretch : Config := mkConfig 5 "Stretch" "Stand up".

(** The documents the examples read, with what they decode to; a field
    that is absent keeps its zero value. *)
Definition documents : list (string * Config) :=
  [ (file_99999, mkConfig 99999 "" "");
    (text_of stretch, stretch);
    (text_of defaultCfg, defaultCfg) ].

Fixpoint lookup (data : string) (table : list (string * Config))
  : option Config :=
  match table with
  | [] => None
  | (text, c) :: rest =>
      if String.eqb data text then Some c else lookup data rest
  end.

(** A codec for the examples: it decodes the documents above and rejects
    any other text. *)
Definition codec : JSONCodec := {|
  json_Unmarshal := fun data => lookup data documents;
  json_MarshalIndent := fun c => Some (text_of c)
|}.

Definition disk_of (content : option string) : Disk := mkDisk content true.

(** The application as [onReady] leaves it when the clock reads zero. *)
Definition app0 : App := mkApp stretch 0 false (disk_of None).

Definition seconds (from count : nat) : list Z :=
  map (fun k => Z.of_nat k * GoTime.Second) (List.seq from count).

Definition ticks (from count : nat) : list Input :=
  map (fun t => Tick t t) (seconds from count).

End Sample.

(** ** How [json.Unmarshal] fills a [Config] from a JSON object *)

(** [loadConfig] hands the bytes of the file to [json.Unmarshal] of Go's
    [encoding/json], with the struct [Config] of lines 71-75 and its three
    tags [interval_minutes], [reminder_title] and [reminder_message].  The
    general results keep the decoder as the parameter [JSONCodec]; this
    module writes out the rules of the library for that struct, to run
    [loadConfig] on the text of a concrete file. *)

Module GoJson.

(** A member value of a JSON object, as far as the three fields go: [null],
    a boolean, a numeral that is an integer, a string.  (Numerals with a
    fraction or an exponent, arrays and objects are left out; Go rejects
    each of them for an [int] or [string] field.) *)
Inductive Value : Type :=
| Null
| Bool (b : bool)
| Int (n : Z)
| Str (s : string).

(** A JSON object: its members in the order of the text. *)
Definition Object : Type := list (string * Value).

Definition member (key : string) (obj : Object) : option Value :=
  option_map snd (find (fun kv => String.eqb (fst kv) key) obj).

(** The JSON text of an object whose keys and strings need no escape. *)
Definition render_value (v : Value) : string :=
  match v with
  | Null => "null"
  | Bool true => "true"
  | Bool false => "false"
  | Int n => itoa n
  | Str s => Sample.quoted s
  end.

Fixpoint render_members (obj : Object) : string :=
  match obj with
  | [] => EmptyString
  | [(k, v)] => (Sample.quoted k ++ ":" ++ render_value v)%string
  | (k, v) :: rest =>
      (Sample.quoted k ++ ":" ++ render_value v ++ ","
       ++ render_members rest)%string
  end.

Definition render (obj : Object) : string :=
  ("{" ++ render_members obj ++ "}")%string.

(** Go matches a key with a field name up to letter case: an ASCII letter
    folds to its capital, and so do the two letters outside ASCII that
    fold to an ASCII one, the long s (bytes 197 191) and the Kelvin sign
    (bytes 226 132 170). *)
Definition fold_ascii (c : ascii) : ascii :=
  let n := nat_of_ascii c in
  if (97 <=? n)%nat && (n <=? 122)%nat then ascii_of_nat (n - 32) else c.

Definition is_byte (n : nat) (c : ascii) : bool :=
  Nat.eqb (nat_of_ascii c) n.

Fixpoint fold_name (s : string) : string :=
  match s with
  | EmptyString => EmptyString
  | String a r =>
      match r with
      | String b r2 =>
          if is_byte 197 a && is_byte 191 b
          then String "S" (fold_name r2)
          else
            match r2 with
            | String c r3 =>
                if is_byte 226 a && is_byte 132 b && is_byte 170 c
                then String "K" (fold_name r3)
                else String (fold_ascii a) (fold_name r)
            | EmptyString => String (fold_ascii a) (fold_name r)
            end
      | EmptyString => String (fold_ascii a) (fold_name r)
      end
  end.

Definition names (key field : string) : bool :=
  String.eqb (fold_name key) (fold_name field).

Definition fits_int (n : Z) : bool :=
  (Int64.min_int <=? n) && (n <=? Int64.max_int).

(** One member into the struct; the flag records an error.  [null] leaves
    a field as it is; a numeral outside the range of [int], or a value of
    another kind than the field, is an error (the decoder goes on and
    reports the error at the end); a key that names no field is skipped. *)
Definition assign (acc : Config * bool) (kv : string * Value)
  : Config * bool :=
  let '(cfg, failed) := acc in
  let '(key, v) := kv in
  if names key "interval_minutes" then
    match v with
    | Null => (cfg, failed)
    | Int n =>
        if fits_int n then (with_IntervalMinutes n cfg, failed)
        else (cfg, true)
    | _ => (cfg, true)
    end
  else if names key "reminder_title" then
    match v with
    | Null => (cfg, failed)
    | Str t => (with_ReminderTitle t cfg, failed)
    | _ => (cfg, true)
    end
  else if names key "reminder_message" then
    match v with
    | Null => (cfg, failed)
    | Str m => (with_ReminderMessage m cfg, failed)
    | _ => (cfg, true)
    end
  else (cfg, failed).

(** [json.Unmarshal] of an object into [var cfg Config]: [None] for an
    error. *)
Definition decode (obj : Object) : option Config :=
  let '(cfg, failed) :=
    fold_left assign obj (mkConfig 0 EmptyString EmptyString, false) in
  if failed then None else Some cfg.

(** A settings file with the interval one past the largest [int], beside a
    title and a message; and one with an interval of 99999 alone. *)
Definition beyond_int : Object :=
  [ ("interval_minutes", Int (2 ^ 63));
    ("reminder_title", Str "Stretch");
    ("reminder_message", Str "Stand up") ].

Definition far_out : Object := [ ("interval_minutes", Int 99999) ].

Definition documents : list Object := [ beyond_int; far_out ].

(** A codec for these documents: the text of one of them is decoded as
    above, any other text is refused. *)
Definition codec : JSONCodec := {|
  json_Unmarshal := fun data =>
    match find (fun obj => String.eqb data (render obj)) documents with
    | Some obj => decode obj
    | None => None
    end;
  json_MarshalIndent := fun c => Some (Sample.text_of c)
|}.

End GoJson.

(** ** Reading the text of a duration back *)

(** The text before the first [c] and the text after it. *)
Fixpoint split_at (c : ascii) (s : string) : option (string * string) :=
  match s with
  | EmptyString => None
  | String a rest =>
      if Ascii.eqb a c then Some (EmptyString, rest)
      else match split_at c rest with
           | Some (before, after) => Some (String a before, after)
           | None => None
           end
  end.

(** A decimal numeral as an integer. *)
Definition atoi (s : string) : option Z :=
  option_map Z.of_int (NilZero.int_of_string s).

(** The numeral that ends at the unit letter [c], and what follows the
    letter. *)
Definition read_unit (c : ascii) (s : string) : option (Z * string) :=
  match split_at c s with
  | Some (digits, after) =>
      match atoi digits with
      | Some n => Some (n, after)
      | None => None
      end
  | None => None
  end.

Definition skip_space (s : string) : option string :=
  match s with
  | String a rest => if Ascii.eqb a " " then Some rest else None
  | EmptyString => None
  end.

(** Hours, minutes and seconds of a text of the form "{h}h {m}m {s}s". *)
Definition parse_hms (text : string) : option (Z * Z * Z) :=
  match read_unit "h" text with
  | Some (h, r1) =>
      match skip_space r1 with
      | Some r1 =>
          match read_unit "m" r1 with
          | Some (m, r2) =>
              match skip_space r2 with
              | Some r2 =>
                  match read_unit "s" r2 with
                  | Some (s, EmptyString) => Some (h, m, s)
                  | _ => None
                  end
              | None => None
              end
          | None => None
          end
      | None => None
      end
  | None => None
  end.

Definition is_digit (c : ascii) : bool :=
  existsb (Ascii.eqb c)
    ["0"; "1"; "2"; "3"; "4"; "5"; "6"; "7"; "8"; "9"]%char.

(** ** Schedules *)

(** An input of the loop itself: a tick or a click, no step of a delivery
    goroutine. *)
Definition is_loop_input (i : Input) : bool :=
  match i with
  | Tick _ _ | Click _ => true
  | _ => false
  end.

(** The warning of [updateInterval]. *)
Definition is_save_warning (e : Event) : bool :=
  match e with EvPrintf WarnNotSaved => true | _ => false end.

(** The interval a menu entry leaves, from the interval it finds. *)
Definition interval_after (c : Command) (cur : Z) : Z :=
  match c with
  | mResetDefault => defaultInterval
  | mInfo | mQuit => cur
  | _ => match command_delta c with
         | Some delta => clamp_interval (cur + delta)
         | None => cur
         end
  end.

(** Ticks at the given clock readings, one reading for both halves. *)
Definition ticks_at (clocks : list Z) : list Input :=
  map (fun t => Tick t t) clocks.

(** ** Single instance: [enforceSingleInstance], [main], [onExit] *)

Module Process.

Definition ERROR_ALREADY_EXISTS : Z := 183.

(** What the operating system answers to [windows.CreateMutex] and to the
    [windows.GetLastError] that follows: the handle, whether [err] is not
    nil, and the last error code. *)
Record MutexCall : Type := mkMutexCall {
  handle : Z;
  create_failed : bool;
  last_error : Z
}.

Inductive ProcEvent : Type :=
| PrintfCreateMutex          (* "CreateMutex error: ..." *)
| CloseHandle (h : Z)
| SystrayRun.                (* [onReady], the loop, until the tray quits *)

(** [enforceSingleInstance]; the state is the global [instanceMutex]. *)
Definition enforceSingleInstance (m : MutexCall) (instanceMutex : Z)
  : bool * Z * list ProcEvent :=
  let h := handle m in
  if create_failed m then (false, instanceMutex, [PrintfCreateMutex])
  else if last_error m =? ERROR_ALREADY_EXISTS
       then (false, instanceMutex, [CloseHandle h])
       else (true, h, []).

Definition onExit (instanceMutex : Z) : Z * list ProcEvent :=
  if negb (instanceMutex =? 0)
  then (0, [CloseHandle instanceMutex])
  else (instanceMutex, []).

(** [main], for a tray that quits: [systray.Run] runs [onReady] and the
    loop, and calls [onExit] when the tray quits.  [instanceMutex] starts
    as the zero handle. *)
Definition main (m : MutexCall) : Z * list ProcEvent :=
  let '(ok, instanceMutex, t) := enforceSingleInstance m 0 in
  if negb ok then (instanceMutex, t)
  else
    let '(instanceMutex, t') := onExit instanceMutex in
    (instanceMutex, t ++ [SystrayRun] ++ t').

Definition closes (h : Z) (e : ProcEvent) : bool :=
  match e with CloseHandle h' => h' =? h | _ => false end.

Definition is_run (e : ProcEvent) : bool :=
  match e with SystrayRun => true | _ => false end.

End Process.

(** ** Resource files: [settingsPath], [licenseFilePath], [iconPath],
       [ensureResourceFiles] *)

Module Resources.

(** [filepath.Join] of two elements and [filepath.Dir], from the standard
    library. *)
Class FilePath : Type := {
  Join : string -> string -> string;
  Dir : string -> string
}.

(** What the process environment answers: [os.Getenv("APPDATA")],
    [os.UserConfigDir()], [os.Getwd()] ([None] for an error) and
    [os.TempDir()]. *)
Record Env : Type := mkEnv {
  APPDATA : string;
  UserConfigDir : option string;
  Getwd : option string;
  TempDir : string
}.

(** The three outcomes of [os.ReadFile] the program tells apart: the
    content; an error for which [os.IsNotExist] holds; any other error,
    with the bytes returned beside it. *)
Inductive ReadResult : Type :=
| ReadOk (data : string)
| ReadNotExist
| ReadFailed (partial : string).

(** The file system as the program sees it: what [os.ReadFile] returns for
    a path, whether [os.WriteFile] to a path succeeds, whether
    [os.MkdirAll] of a directory succeeds.  A write that succeeds makes
    later reads of that path return what was written; a write that fails
    changes nothing.  [read_file] speaks of the files: a directory that
    [os.MkdirAll] creates is recorded as the call in the trace, and what a
    read of the directory's own path returns afterwards is not modelled. *)
Record FileSystem : Type := mkFS {
  read_file : string -> ReadResult;
  write_ok : string -> bool;
  mkdir_ok : string -> bool
}.

Definition write_to (p data : string) (fs : FileSystem) : FileSystem :=
  mkFS (fun q => if String.eqb q p then ReadOk data else read_file fs q)
       (write_ok fs) (mkdir_ok fs).

(** The [fmt.Printf] sites. *)
Inductive FsWarning : Type :=
| WarnConfigDir (dir : string)      (* "Warning: could not create config dir" *)
| ErrLicense (p : string)           (* "Error writing main license file" *)
| ErrIcon (p : string)              (* "Error writing icon" *)
| WarnThirdPartyDir (dir : string)  (* "Warning: could not create third party license directory" *)
| ErrWalk                           (* "Error walking embedded licenses" *)
| ErrReadEmbedded (path : string)   (* "Error reading embedded license file" *)
| ErrThirdParty (dest : string).    (* "Error writing third-party license file" *)

Inductive FsEvent : Type :=
| MkdirAll (dir : string)
| WriteFile (path data : string)
| Printf (w : FsWarning).

(** An entry [fs.WalkDir] hands to the callback: a directory, a file with
    what [thirdPartyLicenses.ReadFile] returns for it ([None] for an
    error), or an entry that comes with an error. *)
Inductive Embedded : Type :=
| EmbDir
| EmbFile (content : option string)
| EmbError.

(** The embedded assets: [licenseData], [iconData] and the tree
    [thirdPartyLicenses] as the list of entries in the order of the walk,
    each with its path. *)
Record Assets : Type := mkAssets {
  licenseData : string;
  iconData : string;
  thirdPartyLicenses : list (string * Embedded)
}.

(** [strings.TrimPrefix]. *)
Definition TrimPrefix (s prefix : string) : string :=
  if String.prefix prefix s
  then substring (String.length prefix)
         (String.length s - String.length prefix) s
  else s.

Section WithEnvironment.

Context {paths : FilePath}.
Variable env : Env.
Variable assets : Assets.

Definition settingsPath (fs : FileSystem) : string * list FsEvent :=
  let appdata := APPDATA env in
  let appdata :=
    if String.eqb appdata ""
    then match UserConfigDir env with
         | Some dir => dir
         | None =>
             match Getwd env with
             | Some cwd => cwd
             | None => TempDir env
             end
         end
    else appdata in
  let dir := Join appdata "BetterPosture" in
  let t := MkdirAll dir
             :: (if mkdir_ok fs dir then [] else [Printf (WarnConfigDir dir)]) in
  (Join dir "settings.json", t).

Definition licenseFilePath (fs : FileSystem) : string * list FsEvent :=
  let '(sp, t) := settingsPath fs in
  let dir := Dir sp in
  (Join dir "LICENSE.txt", t).

Definition iconPath (fs : FileSystem) : string * list FsEvent :=
  let '(sp, t) := settingsPath fs in
  let dir := Dir sp in
  (Join dir "better-posture.ico", t).

(** [os.WriteFile(p, data, 0644)] followed by the warning [w] on an
    error. *)
Definition write_or_warn (p data : string) (w : FsWarning) (fs : FileSystem)
  : FileSystem * list FsEvent :=
  if write_ok fs p
  then (write_to p data fs, [WriteFile p data])
  else (fs, [WriteFile p data; Printf w]).

(** The step [ensureResourceFiles] takes for the license and then, in the
    same words, for the icon: read the file, write it when the read fails
    or the content differs, warn when the write fails. *)
Definition refresh (p data : string) (w : FsWarning) (fs : FileSystem)
  : FileSystem * list FsEvent :=
  let writeRequired :=
    match read_file fs p with
    | ReadOk diskData => negb (String.eqb diskData data)
    | _ => true
    end in
  if writeRequired then write_or_warn p data w fs else (fs, []).

(** What the callback of the walk does with a file once its embedded
    content is read: write when the file on disk does not exist or its
    bytes differ. *)
Definition copy_third_party (destPath embeddedContent : string)
  (fs : FileSystem) : FileSystem * list FsEvent :=
  let shouldWrite :=
    match read_file fs destPath with
    | ReadNotExist => true
    | ReadOk diskContent | ReadFailed diskContent =>
        negb (String.eqb diskContent embeddedContent)
    end in
  if shouldWrite
  then write_or_warn destPath embeddedContent (ErrThirdParty destPath) fs
  else (fs, []).

(** The walk: the callback on each entry in turn; an error returned by the
    callback ends the walk. *)
Fixpoint walk (thirdPartyDir : string) (entries : list (string * Embedded))
  (fs : FileSystem) : FileSystem * list FsEvent :=
  match entries with
  | [] => (fs, [])
  | (path, d) :: rest =>
      match d with
      | EmbError => (fs, [Printf ErrWalk])
      | EmbDir => walk thirdPartyDir rest fs
      | EmbFile readResult =>
          let relPath := TrimPrefix path "THIRD_PARTY_LICENSES/" in
          let destPath := Join thirdPartyDir relPath in
          match readResult with
          | None =>
              let '(fs', t) := walk thirdPartyDir rest fs in
              (fs', Printf (ErrReadEmbedded path) :: t)
          | Some embeddedContent =>
              let '(fs1, t1) := copy_third_party destPath embeddedContent fs in
              let '(fs2, t2) := walk thirdPartyDir rest fs1 in
              (fs2, t1 ++ t2)
          end
      end
  end.

Definition ensureResourceFiles (fs : FileSystem)
  : FileSystem * list FsEvent :=
  let '(p, t0) := licenseFilePath fs in
  let '(fs, t1) := refresh p (licenseData assets) (ErrLicense p) fs in
  let '(p, t2) := iconPath fs in
  let '(fs, t3) := refresh p (iconData assets) (ErrIcon p) fs in
  let '(sp, t4) := settingsPath fs in
  let appDataDir := Dir sp in
  let thirdPartyDir := Join appDataDir "THIRD_PARTY_LICENSES" in
  let t5 := MkdirAll thirdPartyDir
              :: (if mkdir_ok fs thirdPartyDir then []
                  else [Printf (WarnThirdPartyDir thirdPartyDir)]) in
  let '(fs, t6) := walk thirdPartyDir (thirdPartyLicenses assets) fs in
  (fs, t0 ++ t1 ++ t2 ++ t3 ++ t4 ++ t5 ++ t6).

(** The directory [settingsPath] asks to create. *)
Definition config_dir : string :=
  let appdata := APPDATA env in
  let appdata :=
    if String.eqb appdata ""
    then match UserConfigDir env with
         | Some dir => dir
         | None =>
             match Getwd env with
             | Some cwd => cwd
             | None => TempDir env
             end
         end
    else appdata in
  Join appdata "BetterPosture".

(** The directory all resource files go to. *)
Definition resource_dir (fs : FileSystem) : string :=
  Dir (fst (settingsPath fs)).

(** The third-party files the walk reaches, each with the path it is
    copied to and its content. *)
Fixpoint walk_targets (thirdPartyDir : string)
  (entries : list (string * Embedded)) : list (string * string) :=
  match entries with
  | [] => []
  | (path, EmbError) :: _ => []
  | (path, EmbDir) :: rest => walk_targets thirdPartyDir rest
  | (path, EmbFile None) :: rest => walk_targets thirdPartyDir rest
  | (path, EmbFile (Some content)) :: rest =>
      (Join thirdPartyDir (TrimPrefix path "THIRD_PARTY_LICENSES/"), content)
        :: walk_targets thirdPartyDir rest
  end.

(** Every file [ensureResourceFiles] looks after, with its content. *)
Definition targets (fs : FileSystem) : list (string * string) :=
  let dir := resource_dir fs in
  (Join dir "LICENSE.txt", licenseData assets)
    :: (Join dir "better-posture.ico", iconData assets)
    :: walk_targets (Join dir "THIRD_PARTY_LICENSES")
         (thirdPartyLicenses assets).

End WithEnvironment.

Definition is_write (e : FsEvent) : bool :=
  match e with WriteFile _ _ => true | _ => false end.

(** What one guarded write does, whichever of the three sites it is at. *)
Definition step_ok (p data : string) (fs : FileSystem)
  (r : FileSystem * list FsEvent) : Prop :=
  write_ok (fst r) = write_ok fs
  /\ mkdir_ok (fst r) = mkdir_ok fs
  /\ (forall q, q <> p -> read_file (fst r) q = read_file fs q)
  /\ (forall q d, In (WriteFile q d) (snd r) -> q = p /\ d = data)
  /\ (read_file fs p = ReadOk data -> r = (fs, [])).

(** For the examples: Windows paths joined by a backslash. *)
Definition separator : string := "\".

Fixpoint has_separator (s : string) : bool :=
  match s with
  | EmptyString => false
  | String c rest => String.eqb (String c EmptyString) separator
                     || has_separator rest
  end.

Fixpoint before_last_separator (s : string) : string :=
  match s with
  | EmptyString => EmptyString
  | String c rest =>
      if String.eqb (String c EmptyString) separator
         && negb (has_separator rest)
      then EmptyString
      else String c (before_last_separator rest)
  end.

Definition sample_paths : FilePath := {|
  Join := fun a b => (a ++ separator ++ b)%string;
  Dir := before_last_separator
|}.

Definition sample_env : Env :=
  mkEnv "C:\Users\me\AppData\Roaming" None None "C:\Temp".

Definition sample_assets : Assets :=
  mkAssets "GPLv3" "icon-bytes"
    [ ("THIRD_PARTY_LICENSES", EmbDir);
      ("THIRD_PARTY_LICENSES/systray.txt", EmbFile (Some "Apache-2.0"));
      ("THIRD_PARTY_LICENSES/toast.txt", EmbFile (Some "BSD-3-Clause")) ].

(** A disk on which nothing exists yet and every write succeeds. *)
Definition empty_fs : FileSystem :=
  mkFS (fun _ => ReadNotExist) (fun _ => true) (fun _ => true).

Definition sample_targets : list (string * string) :=
  @targets sample_paths sample_env sample_assets empty_fs.

(** A disk on which the license is already in place and nothing else. *)
Definition license_in_place : FileSystem :=
  write_to (fst (hd (EmptyString, EmptyString) sample_targets)) "GPLv3"
    empty_fs.

End Resources.

(** ** Arithmetic of the 64-bit operations *)

Ltac int64_unfold :=
  cbv [Int64.in_range Int64.min_int Int64.max_int Int64.wrap Int64.add
       Int64.sub Int64.mul Int64.neg Int64.to_uint64 Int64.saturate
       GoTime.minDuration GoTime.maxDuration GoTime.Second GoTime.Minute
       GoTime.Nanosecond GoTime.Minutes GoTime.Since GoTime.Until
       GoTime.Sub GoTime.Add GoTime.Unix0 GoTime.UnixNano
       minInterval maxInterval defaultInterval round_limit] in *;
  change (2 ^ 63) with 9223372036854775808 in *;
  change (2 ^ 64) with 18446744073709551616 in *.

Ltac split_ltb :=
  repeat match goal with
         | |- context [ ?a <? ?b ] => destruct (Z.ltb_spec a b)
         | |- context [ ?a <=? ?b ] => destruct (Z.leb_spec a b)
         end.

Lemma wrap_in_range (z : Z) : Int64.in_range (Int64.wrap z).
Proof. int64_unfold. Z.to_euclidean_division_equations. lia. Qed.

Lemma wrap_id (z : Z) : Int64.in_range z -> Int64.wrap z = z.
Proof. int64_unfold. intros. Z.to_euclidean_division_equations. lia. Qed.

Lemma saturate_in_range (z : Z) : Int64.in_range (Int64.saturate z).
Proof. int64_unfold. split_ltb; lia. Qed.

(** Clipping a difference does not change how it compares with a
    representable bound. *)
Lemma saturate_le_iff (b z : Z) :
  Int64.min_int < b <= Int64.max_int -> (b <= Int64.saturate z <-> b <= z).
Proof. int64_unfold. split_ltb; lia. Qed.

Lemma Minutes_exact (n : Z) :
  minInterval <= n <= maxInterval ->
  GoTime.Minutes n = n * GoTime.Minute
  /\ Int64.min_int < n * GoTime.Minute <= Int64.max_int.
Proof. int64_unfold. intros. Z.to_euclidean_division_equations. lia. Qed.

(** ** [formatDuration] *)


Lemma Round_Second_seconds (d : Z) :
  Int64.in_range d ->
  Z.max 0 (GoTime.SecondsInt (GoTime.Round d GoTime.Second)) = shown_seconds d.
Proof.
  intros Hd.
  unfold shown_seconds, GoTime.SecondsInt, GoTime.Round, GoTime.lessThanHalf.
  int64_unfold.
  change (1000000000 * 1) with 1000000000.
  change (1000000000 <=? 0) with false. cbv iota.
  repeat match goal with
         | |- context [ ?a <? ?b ] => destruct (Z.ltb_spec a b)
         end; Z.to_euclidean_division_equations; lia.
Qed.

(** What [Round] hands to [Seconds] is a whole number of seconds or one of
    the two extreme durations: the cases [GoTime.SecondsInt] is read on. *)
Lemma Round_Second_cases (d : Z) :
  Int64.in_range d ->
  let r := GoTime.Round d GoTime.Second in
  Z.rem r GoTime.Second = 0 \/ r = GoTime.maxDuration \/ r = GoTime.minDuration.
Proof.
  intros Hd. unfold GoTime.Round, GoTime.lessThanHalf.
  int64_unfold.
  change (1000000000 * 1) with 1000000000.
  change (1000000000 <=? 0) with false. cbv iota zeta.
  repeat match goal with
         | |- context [ ?a <? ?b ] => destruct (Z.ltb_spec a b)
         end; try (right; lia);
    left; Z.to_euclidean_division_equations; lia.
Qed.

Lemma formatDuration_shown (d : Z) :
  Int64.in_range d ->
  let t := shown_seconds d in
  formatDuration d = sprintf_hms (t / 3600) ((t / 60) mod 60) (t mod 60).
Proof.
  intros Hd t. unfold formatDuration.
  pose proof (Round_Second_seconds d Hd) as E. fold t in E.
  set (q := GoTime.SecondsInt (GoTime.Round d GoTime.Second)) in *.
  assert (Ht : (if q <? 0 then 0 else q) = t)
    by (destruct (Z.ltb_spec q 0); lia).
  cbv zeta. rewrite Ht.
  assert (0 <= t) by (subst t; unfold shown_seconds; lia).
  rewrite !Z.quot_div_nonneg, !Z.rem_mod_nonneg by
      (try apply Z.div_pos; lia).
  reflexivity.
Qed.

Lemma shown_seconds_nearest (d : Z) :
  d < round_limit -> shown_seconds d = Z.max 0 (nearest_second d).
Proof.
  unfold shown_seconds, nearest_second, round_limit. intros.
  destruct (Z.sgn_spec d) as [[? E]|[[? E]|[? E]]]; rewrite E;
    Z.to_euclidean_division_equations; lia.
Qed.

Lemma shown_seconds_saturated (d : Z) :
  Int64.in_range d -> round_limit <= d -> shown_seconds d = 9223372036.
Proof.
  unfold shown_seconds. int64_unfold. intros.
  Z.to_euclidean_division_equations; lia.
Qed.

Lemma shown_seconds_nonpos (d : Z) : d <= 0 -> shown_seconds d = 0.
Proof.
  unfold shown_seconds. intros. Z.to_euclidean_division_equations; lia.
Qed.

(** C6 (as amended).  For every duration [d] below 9223372036.5 seconds,
    [formatDuration d] is "{h}h {m}m {s}s" with h = total/3600,
    m = (total/60) mod 60, s = total mod 60, where total is [d] rounded to
    the nearest second (halves away from zero) and negative totals are
    clamped to zero; 3661 seconds render as "1h 1m 1s", zero and negative
    durations as "0h 0m 0s".  From 9223372036.5 seconds up to the last
    [Duration] the rounding saturates and the text is "2562047h 47m 16s". *)
Theorem formatDuration_rounds_to_nearest_second (d : Z) :
  Int64.in_range d ->
  (d < round_limit -> formatDuration d = spec_formatDuration d)
  /\ (round_limit <= d -> formatDuration d = "2562047h 47m 16s"%string)
  /\ (d <= 0 -> formatDuration d = "0h 0m 0s"%string)
  /\ formatDuration (3661 * GoTime.Second) = "1h 1m 1s"%string.
Proof.
  intros Hd. split; [ | split; [ | split ] ].
  - intros Hlt. rewrite (formatDuration_shown d Hd).
    cbv zeta. rewrite (shown_seconds_nearest d Hlt). reflexivity.
  - intros Hge. rewrite (formatDuration_shown d Hd).
    cbv zeta. rewrite (shown_seconds_saturated d Hd Hge).
    vm_compute. reflexivity.
  - intros Hle. rewrite (formatDuration_shown d Hd).
    cbv zeta. rewrite (shown_seconds_nonpos d Hle).
    vm_compute. reflexivity.
  - vm_compute. reflexivity.
Qed.

(** C10.  For every duration the hours, minutes and seconds that
    [formatDuration] prints are never negative, minutes and seconds stay in
    [0,59], and the hours carry all the rest: the three add up to the
    seconds shown, so a day or more prints 24 hours and above. *)
Theorem formatDuration_components (d : Z) :
  Int64.in_range d ->
  let t := shown_seconds d in
  let h := t / 3600 in
  let m := (t / 60) mod 60 in
  let s := t mod 60 in
  formatDuration d = sprintf_hms h m s
  /\ 0 <= h /\ 0 <= m <= 59 /\ 0 <= s <= 59
  /\ h * 3600 + m * 60 + s = t
  /\ (24 * 3600 * GoTime.Second <= d -> 24 <= h).
Proof.
  intros Hd t h m s.
  split; [ exact (formatDuration_shown d Hd) | ].
  assert (0 <= t) by (subst t; unfold shown_seconds; lia).
  subst h m s.
  repeat split; try (Z.to_euclidean_division_equations; lia).
  intros Hday. subst t. unfold shown_seconds in *. int64_unfold.
  Z.to_euclidean_division_equations; lia.
Qed.

Example formatDuration_3661 :
  formatDuration (3661 * GoTime.Second) = "1h 1m 1s"%string.
Proof. vm_compute. reflexivity. Qed.

Example formatDuration_half_up :
  formatDuration 1500000000 = "0h 0m 2s"%string
  /\ formatDuration 1499999999 = "0h 0m 1s"%string
  /\ formatDuration (-1500000000) = "0h 0m 0s"%string.
Proof. vm_compute. repeat split. Qed.

Example formatDuration_25_hours :
  formatDuration (25 * 60 * GoTime.Minute) = "25h 0m 0s"%string.
Proof. vm_compute. reflexivity. Qed.

(** At the last [Duration], 9223372036.854775807 seconds, the nearest
    second is 9223372037, which no [Duration] holds: [Round] returns the
    last [Duration] and the text shows 9223372036 seconds. *)
Lemma formatDuration_maxDuration_not_nearest :
  formatDuration GoTime.maxDuration = "2562047h 47m 16s"%string
  /\ spec_formatDuration GoTime.maxDuration = "2562047h 47m 17s"%string
  /\ formatDuration GoTime.maxDuration
     <> spec_formatDuration GoTime.maxDuration.
Proof.
  assert (E1 : formatDuration GoTime.maxDuration = "2562047h 47m 16s"%string)
    by (vm_compute; reflexivity).
  assert (E2 : spec_formatDuration GoTime.maxDuration
               = "2562047h 47m 17s"%string)
    by (vm_compute; reflexivity).
  refine (conj E1 (conj E2 _)).
  rewrite E1, E2. discriminate.
Qed.

Lemma formatDuration_rounds_to_nearest_second_witness :
  Int64.in_range 1500000000
  /\ 1500000000 < round_limit
  /\ formatDuration 1500000000 = spec_formatDuration 1500000000
  /\ Int64.in_range GoTime.maxDuration
  /\ round_limit <= GoTime.maxDuration
  /\ formatDuration GoTime.maxDuration = "2562047h 47m 16s"%string
  /\ -1 <= 0
  /\ formatDuration (-1) = "0h 0m 0s"%string.
Proof.
  assert (R1 : Int64.in_range 1500000000) by (vm_compute; split; discriminate).
  assert (R2 : Int64.in_range GoTime.maxDuration)
    by (vm_compute; split; discriminate).
  assert (R3 : Int64.in_range (-1)) by (vm_compute; split; discriminate).
  assert (L1 : 1500000000 < round_limit) by reflexivity.
  assert (L2 : round_limit <= GoTime.maxDuration) by (vm_compute; discriminate).
  assert (L3 : -1 <= 0) by (vm_compute; discriminate).
  refine (conj R1 (conj L1 (conj _ (conj R2 (conj L2 (conj _ (conj L3 _))))))).
  - exact (proj1 (formatDuration_rounds_to_nearest_second _ R1) L1).
  - exact (proj1 (proj2 (formatDuration_rounds_to_nearest_second _ R2)) L2).
  - exact (proj1 (proj2 (proj2
             (formatDuration_rounds_to_nearest_second _ R3))) L3).
Defined.

Lemma formatDuration_components_witness :
  Int64.in_range (25 * 60 * GoTime.Minute)
  /\ 24 * 3600 * GoTime.Second <= 25 * 60 * GoTime.Minute
  /\ 24 <= shown_seconds (25 * 60 * GoTime.Minute) / 3600.
Proof.
  assert (R : Int64.in_range (25 * 60 * GoTime.Minute))
    by (vm_compute; split; discriminate).
  assert (L : 24 * 3600 * GoTime.Second <= 25 * 60 * GoTime.Minute)
    by (vm_compute; discriminate).
  refine (conj R (conj L _)).
  exact (proj2 (proj2 (proj2 (proj2 (proj2
           (formatDuration_components _ R))))) L).
Defined.

(** ** The settings store *)

Ltac io_unfold :=
  cbv [bind ret emit gets modify onDisk result_of state_of trace_of
       warn_on os_ReadFile os_WriteFile show_base atomic_store_showing
       atomic_store_last showToast showMessage store_cfg store_last
       store_showing] in *.

Lemma bind_gets {S A B : Type} (f : S -> A) (k : A -> IO S B) (s : S) :
  bind (gets f) k s = k (f s) s.
Proof.
  unfold bind, gets. destruct (k (f s) s) as [[b s2] t2]. reflexivity.
Qed.

Lemma bind_ret_tt {S A : Type} (m : IO S A) (k : IO S unit) (s : S) :
  trace_of (bind m (fun _ => k) s)
  = trace_of (m s) ++ trace_of (k (state_of (m s)))
  /\ state_of (bind m (fun _ => k) s) = state_of (k (state_of (m s))).
Proof.
  unfold bind, trace_of, state_of.
  destruct (m s) as [[a s1] t1]. cbn [fst snd].
  destruct (k s1) as [[b s2] t2]. split; reflexivity.
Qed.

Section SettingsStore.

Context {codec : JSONCodec}.

(** The three ways [saveConfig] can go. *)
Lemma saveConfig_run (c : Config) (dk : Disk) :
  saveConfig c dk =
  match json_MarshalIndent c with
  | None => (Some ErrMarshal, dk, [])
  | Some data =>
      if writable dk
      then (None, mkDisk (Some data) (writable dk), [EvWriteFile data])
      else (Some ErrWrite, dk, [EvWriteFile data])
  end.
Proof.
  unfold saveConfig. destruct (json_MarshalIndent c); [ | reflexivity ].
  io_unfold. destruct (writable dk); reflexivity.
Qed.

(** A run of [saveConfig] shows nothing to the user and, when the text is
    produced, asks the disk for exactly one write of it. *)
Lemma saveConfig_quiet (c : Config) (dk : Disk) :
  forallb (fun e => negb (is_notification e)) (trace_of (saveConfig c dk))
  = true.
Proof.
  rewrite saveConfig_run.
  destruct (json_MarshalIndent c); [ destruct (writable dk) | ]; reflexivity.
Qed.


Ltac sanitize_cases :=
  repeat (cbv beta iota zeta;
          cbn [with_IntervalMinutes with_ReminderTitle with_ReminderMessage
               IntervalMinutes ReminderTitle ReminderMessage fst snd];
          match goal with
          | |- context [ ?a <? ?b ] => destruct (Z.ltb_spec a b)
          | |- context [ String.eqb ?a ?b ] => destruct (String.eqb_spec a b)
          end);
  cbv beta iota zeta;
  cbn [with_IntervalMinutes with_ReminderTitle with_ReminderMessage
       IntervalMinutes ReminderTitle ReminderMessage fst snd].

Lemma sanitize_fields (c : Config) :
  let c' := fst (sanitize c) in
  IntervalMinutes c' = clamp_interval (IntervalMinutes c)
  /\ ReminderTitle c' = repaired_title c
  /\ ReminderMessage c' = repaired_message c.
Proof.
  unfold sanitize, clamp_interval, repaired_title, repaired_message.
  destruct c as [n t m]. unfold minInterval, maxInterval.
  sanitize_cases; (split; [ lia | split; reflexivity ]).
Qed.

Lemma sanitize_needsSave (c : Config) :
  snd (sanitize c) = false <-> config_ok c.
Proof.
  unfold sanitize, config_ok.
  destruct c as [n t m]. unfold minInterval, maxInterval.
  sanitize_cases;
    (split; [ intros E; try discriminate E; repeat split; (lia || assumption)
            | intros (Hr & Ht & Hm); try reflexivity;
              try contradiction; lia ]).
Qed.

Lemma sanitize_fixpoint (c : Config) :
  config_ok c -> sanitize c = (c, false).
Proof.
  intros Hok.
  pose proof (proj2 (sanitize_needsSave c) Hok) as Hn.
  pose proof (sanitize_fields c) as (Hi & Ht & Hm).
  destruct Hok as (Hr & Ht' & Hm').
  destruct (sanitize c) as [c' b]. cbn [fst snd] in *. subst b.
  unfold repaired_title, repaired_message, clamp_interval in *.
  destruct (String.eqb_spec (ReminderTitle c) "") as [E1 | E1];
    [ contradiction | ].
  destruct (String.eqb_spec (ReminderMessage c) "") as [E2 | E2];
    [ contradiction | ].
  destruct c as [n t m], c' as [n' t' m'].
  cbn [IntervalMinutes ReminderTitle ReminderMessage] in *.
  f_equal. f_equal; [ lia | assumption | assumption ].
Qed.

Lemma sanitize_ok (c : Config) : config_ok (fst (sanitize c)).
Proof.
  pose proof (sanitize_fields c) as (Hi & Ht & Hm).
  unfold config_ok. rewrite Hi, Ht, Hm.
  unfold clamp_interval, repaired_title, repaired_message,
    minInterval, maxInterval.
  repeat split; try lia.
  - destruct (String.eqb_spec (ReminderTitle c) ""); [ discriminate | assumption ].
  - destruct (String.eqb_spec (ReminderMessage c) ""); [ discriminate | assumption ].
Qed.

(** [loadConfig] on a file that decodes. *)
Lemma loadConfig_decoded (dk : Disk) (data : string) (c : Config) :
  settings dk = Some data ->
  json_Unmarshal data = Some c ->
  loadConfig dk =
  if snd (sanitize c)
  then
    let '(saveErr, dk', t) := saveConfig (fst (sanitize c)) dk in
    (fst (sanitize c), dk',
     t ++ match saveErr with
          | Some _ => [EvPrintf WarnAdjustedNotSaved]
          | None => []
          end)
  else (fst (sanitize c), dk, []).
Proof.
  intros Hs Hu. unfold loadConfig.
  unfold bind at 1. unfold os_ReadFile, gets. rewrite Hs, Hu.
  destruct (sanitize c) as [c' b]. cbn [fst snd].
  destruct b.
  - io_unfold. destruct (saveConfig c' dk) as [[e dk'] t].
    destruct e; cbn; rewrite ?app_nil_r; reflexivity.
  - reflexivity.
Qed.

(** [loadConfig] on a file that cannot be read or does not decode. *)
Lemma loadConfig_fallback (dk : Disk) :
  (settings dk = None
   \/ exists data, settings dk = Some data /\ json_Unmarshal data = None) ->
  exists pre,
    (pre = [] \/ pre = [EvPrintf WarnInvalidJSON])
    /\ loadConfig dk =
       let '(saveErr, dk', t) := saveConfig defaultCfg dk in
       (defaultCfg, dk',
        pre ++ t ++ match saveErr with
                    | Some _ => [EvPrintf WarnDefaultNotWritten]
                    | None => []
                    end).
Proof.
  intros [Hs | (data & Hs & Hu)]; unfold loadConfig;
    unfold bind at 1; unfold os_ReadFile, gets; rewrite Hs; [ | rewrite Hu ].
  - exists []. split; [ left; reflexivity | ].
    io_unfold. destruct (saveConfig defaultCfg dk) as [[e dk'] t].
    destruct e; cbn; rewrite ?app_nil_r; reflexivity.
  - exists [EvPrintf WarnInvalidJSON]. split; [ right; reflexivity | ].
    io_unfold. destruct (saveConfig defaultCfg dk) as [[e dk'] t].
    destruct e; cbn; rewrite ?app_nil_r; reflexivity.
Qed.

End SettingsStore.

Section SettingsStoreClaims.

Context {codec : JSONCodec}.

(** C4 (as amended).  When [json.Unmarshal] decodes the settings file
    without an error, to a configuration whose interval
    is out of [1,1440] or whose title or message is empty, [loadConfig]
    returns the repaired configuration: the interval clamped to [1,1440]
    (99999 becomes 1440), an empty title or message replaced by its
    default, the other fields as read.  The repaired configuration is
    written back at once: the write of its text is the first event of the
    run, and the file holds that text when the write succeeds. *)
Theorem loadConfig_sanitizes_and_resaves
  (dk : Disk) (data : string) (c : Config) :
  settings dk = Some data ->
  json_Unmarshal data = Some c ->
  (IntervalMinutes c < minInterval \/ maxInterval < IntervalMinutes c
   \/ ReminderTitle c = ""%string \/ ReminderMessage c = ""%string) ->
  let r := loadConfig dk in
  let c' := result_of r in
  IntervalMinutes c' = clamp_interval (IntervalMinutes c)
  /\ ReminderTitle c' = repaired_title c
  /\ ReminderMessage c' = repaired_message c
  /\ config_ok c'
  /\ (IntervalMinutes c = 99999 -> IntervalMinutes c' = 1440)
  /\ (forall out, json_MarshalIndent c' = Some out ->
        trace_of r
        = EvWriteFile out
            :: (if writable dk then [] else [EvPrintf WarnAdjustedNotSaved])
        /\ state_of r
           = (if writable dk then mkDisk (Some out) (writable dk) else dk)).
Proof.
  intros Hs Hu Hbad r c'.
  assert (Hneeds : snd (sanitize c) = true).
  { destruct (snd (sanitize c)) eqn:E; [ reflexivity | ].
    apply sanitize_needsSave in E. destruct E as (Hr & Ht & Hm).
    destruct Hbad as [H | [H | [H | H]]]; [ lia | lia | | ]; contradiction. }
  assert (Hc' : c' = fst (sanitize c)).
  { subst c' r. rewrite (loadConfig_decoded dk data c Hs Hu), Hneeds.
    destruct (saveConfig (fst (sanitize c)) dk) as [[e dk'] t]. reflexivity. }
  pose proof (sanitize_fields c) as (Hi & Ht & Hm).
  rewrite Hc'. split; [ exact Hi | ]. split; [ exact Ht | ].
  split; [ exact Hm | ]. split; [ apply sanitize_ok | ].
  split.
  - intros E. rewrite Hi, E. reflexivity.
  - intros out Hout. subst r.
    rewrite (loadConfig_decoded dk data c Hs Hu), Hneeds.
    rewrite saveConfig_run, Hout.
    destruct (writable dk); split; reflexivity.
Qed.

(** C5.  When the settings file cannot be read (it does not exist, for
    instance) or its content does not decode, [loadConfig] returns exactly
    the default configuration {3, "Posture Reminder", "Time to check your
    posture!"} and writes it to disk: the write of its text is in the
    trace and, when the write succeeds, the file holds it.  Nothing is
    shown to the user: the trace has no toast and no message box. *)
Theorem loadConfig_defaults_when_unreadable (dk : Disk) :
  (settings dk = None
   \/ exists data, settings dk = Some data /\ json_Unmarshal data = None) ->
  let r := loadConfig dk in
  result_of r
  = mkConfig 3 "Posture Reminder" "Time to check your posture!"
  /\ (forall out, json_MarshalIndent (result_of r) = Some out ->
        In (EvWriteFile out) (trace_of r)
        /\ (writable dk = true -> settings (state_of r) = Some out))
  /\ forallb (fun e => negb (is_notification e)) (trace_of r) = true.
Proof.
  intros Hbad r.
  destruct (loadConfig_fallback dk Hbad) as (pre & Hpre & Hrun).
  subst r. rewrite Hrun. clear Hrun.
  pose proof (saveConfig_run defaultCfg dk) as Hsave.
  pose proof (saveConfig_quiet defaultCfg dk) as Hquiet.
  destruct (saveConfig defaultCfg dk) as [[e dk'] t].
  cbv [result_of state_of trace_of fst snd] in *.
  split; [ reflexivity | ]. split.
  - intros out Hout. rewrite Hout in Hsave.
    destruct (writable dk); inversion Hsave; subst; split;
      try (intros; reflexivity); try discriminate;
      apply in_or_app; right; left; reflexivity.
  - rewrite !forallb_app, Hquiet.
    destruct Hpre as [-> | ->]; destruct e; reflexivity.
Qed.


(** Whatever the disk holds, the configuration [loadConfig] returns
    satisfies the invariant of the data model. *)
Lemma loadConfig_ok (dk : Disk) : config_ok (result_of (loadConfig dk)).
Proof.
  destruct (settings dk) as [data | ] eqn:Hs;
    [ destruct (json_Unmarshal data) as [c | ] eqn:Hu | ].
  - rewrite (loadConfig_decoded dk data c Hs Hu).
    destruct (snd (sanitize c));
      [ destruct (saveConfig (fst (sanitize c)) dk) as [[e dk'] t] | ];
      apply sanitize_ok.
  - destruct (loadConfig_fallback dk) as (pre & _ & ->);
      [ right; exists data; split; assumption | ].
    destruct (saveConfig defaultCfg dk) as [[e dk'] t].
    cbv [result_of fst]. repeat split; try discriminate;
      unfold minInterval, maxInterval; cbn; lia.
  - destruct (loadConfig_fallback dk) as (pre & _ & ->);
      [ left; assumption | ].
    destruct (saveConfig defaultCfg dk) as [[e dk'] t].
    cbv [result_of fst]. repeat split; try discriminate;
      unfold minInterval, maxInterval; cbn; lia.
Qed.

End SettingsStoreClaims.

(** ** The interval controller *)

Section IntervalController.

Context {codec : JSONCodec}.

Lemma clamp_interval_range (n : Z) :
  minInterval <= clamp_interval n <= maxInterval.
Proof. unfold clamp_interval, minInterval, maxInterval. lia. Qed.

Lemma clamp_interval_monotone (n n' : Z) :
  n <= n' -> clamp_interval n <= clamp_interval n'.
Proof. unfold clamp_interval. lia. Qed.


(** One run of [updateInterval], spelled out: the new interval is the
    clamped argument, the new configuration goes through [saveConfig]
    whatever its value, a failed save is warned about, and the label is
    set. *)
Lemma updateInterval_run (newInterval : Z) (st : App) :
  let c' := with_IntervalMinutes (clamp_interval newInterval) (cfg st) in
  let '(saveErr, dk', t) := saveConfig c' (disk st) in
  updateInterval newInterval st =
  (tt, mkApp c' (lastTriggeredUnix st) (isMessageShowing st) dk',
   t ++ match saveErr with
        | Some _ => [EvPrintf WarnNotSaved]
        | None => []
        end ++ [interval_label (clamp_interval newInterval)]).
Proof.
  assert (Hc : (if maxInterval
                     <? (if newInterval <? minInterval
                         then minInterval else newInterval)
                then maxInterval
                else if newInterval <? minInterval
                     then minInterval else newInterval)
               = clamp_interval newInterval).
  { unfold clamp_interval, minInterval, maxInterval.
    destruct (Z.ltb_spec newInterval 1); split_ltb; lia. }
  cbv zeta. unfold updateInterval. rewrite Hc.
  destruct (saveConfig _ (disk st)) as [[e dk'] t] eqn:Hsave.
  io_unfold. cbn [cfg disk lastTriggeredUnix isMessageShowing].
  rewrite Hsave. destruct e; cbn; reflexivity.
Qed.

Lemma updateInterval_state (newInterval : Z) (st : App) :
  let st' := state_of (updateInterval newInterval st) in
  cfg st' = with_IntervalMinutes (clamp_interval newInterval) (cfg st)
  /\ lastTriggeredUnix st' = lastTriggeredUnix st
  /\ isMessageShowing st' = isMessageShowing st
  /\ disk st'
     = state_of (saveConfig
                   (with_IntervalMinutes (clamp_interval newInterval)
                      (cfg st)) (disk st)).
Proof.
  pose proof (updateInterval_run newInterval st) as H. cbv zeta in H.
  destruct (saveConfig _ (disk st)) as [[e dk'] t].
  cbv zeta. rewrite H. cbv [state_of fst snd]. repeat split.
Qed.

(** The save inside [updateInterval]: when the text of the new
    configuration is [out], its write opens the trace, and the file holds
    it if the write succeeds. *)
Lemma updateInterval_saves (newInterval : Z) (st : App) (out : string) :
  json_MarshalIndent
    (with_IntervalMinutes (clamp_interval newInterval) (cfg st)) = Some out ->
  let r := updateInterval newInterval st in
  (exists rest, trace_of r = EvWriteFile out :: rest)
  /\ (writable (disk st) = true ->
      settings (disk (state_of r)) = Some out).
Proof.
  intros Hout.
  pose proof (updateInterval_run newInterval st) as H. cbv zeta in H.
  rewrite saveConfig_run, Hout in H. cbv zeta.
  destruct (writable (disk st)); rewrite H; cbv [trace_of state_of fst snd];
    (split; [ eexists; reflexivity | intros E; (reflexivity || discriminate E) ]).
Qed.

(** Each of the eight adjusting entries calls [updateInterval] on the
    wrapped sum of the current interval and its minutes. *)
Lemma click_adjusts (c : Command) (delta : Z) (st : App) :
  command_delta c = Some delta ->
  click c st
  = updateInterval (Int64.add (IntervalMinutes (cfg st)) delta) st.
Proof.
  destruct c; intros E; inversion E; subst; unfold click;
    rewrite bind_gets; reflexivity.
Qed.

(** From an interval in [1,1440] no menu entry makes the sum overflow. *)
Lemma menu_sum_in_range (c : Command) (delta : Z) (st : App) :
  command_delta c = Some delta ->
  minInterval <= IntervalMinutes (cfg st) <= maxInterval ->
  Int64.in_range (IntervalMinutes (cfg st) + delta).
Proof.
  destruct c; intros E; inversion E; subst; int64_unfold; lia.
Qed.

(** C3.  For every current interval and every delta whose sum is a Go
    [int] (from an interval in [1,1440], every menu delta is), adjusting
    stores the sum clamped to [1,1440] and leaves the rest of the shared
    state alone; the stored value is in [1,1440] and does not decrease
    when the delta grows; and the new configuration is saved whatever its
    value, also when it equals the former one: the write of its text
    opens the trace and the file holds it when the write succeeds.  The
    eight adjusting menu entries are this operation at their deltas. *)
Theorem adjust_clamps_and_always_saves (st : App) (delta : Z) :
  let cur := IntervalMinutes (cfg st) in
  Int64.in_range (cur + delta) ->
  let r := updateInterval (Int64.add cur delta) st in
  let st' := state_of r in
  IntervalMinutes (cfg st') = clamp_interval (cur + delta)
  /\ ReminderTitle (cfg st') = ReminderTitle (cfg st)
  /\ ReminderMessage (cfg st') = ReminderMessage (cfg st)
  /\ lastTriggeredUnix st' = lastTriggeredUnix st
  /\ isMessageShowing st' = isMessageShowing st
  /\ minInterval <= IntervalMinutes (cfg st') <= maxInterval
  /\ (forall delta',
        Int64.in_range (cur + delta') -> delta <= delta' ->
        IntervalMinutes (cfg st')
        <= IntervalMinutes
             (cfg (state_of (updateInterval (Int64.add cur delta') st))))
  /\ (forall out,
        json_MarshalIndent (cfg st') = Some out ->
        (exists rest, trace_of r = EvWriteFile out :: rest)
        /\ (writable (disk st) = true ->
            settings (disk st') = Some out))
  /\ (forall c, command_delta c = Some delta -> click c st = r).
Proof.
  intros cur Hsum r st'.
  assert (Hadd : Int64.add cur delta = cur + delta)
    by (apply wrap_id; exact Hsum).
  pose proof (updateInterval_state (Int64.add cur delta) st)
    as (Hcfg & Hlast & Hshow & Hdisk).
  fold r in Hcfg, Hlast, Hshow, Hdisk. fold st' in Hcfg, Hlast, Hshow, Hdisk.
  rewrite Hadd in Hcfg.
  rewrite Hcfg. cbn [with_IntervalMinutes IntervalMinutes ReminderTitle
                       ReminderMessage].
  split; [ reflexivity | ]. split; [ reflexivity | ].
  split; [ reflexivity | ]. split; [ exact Hlast | ].
  split; [ exact Hshow | ]. split; [ apply clamp_interval_range | ].
  split; [ | split ].
  - intros delta' Hsum' Hle.
    pose proof (updateInterval_state (Int64.add cur delta') st)
      as (Hcfg' & _).
    rewrite Hcfg'. cbn [with_IntervalMinutes IntervalMinutes].
    replace (Int64.add cur delta') with (cur + delta')
      by (symmetry; apply wrap_id; exact Hsum').
    apply clamp_interval_monotone. lia.
  - intros out Hout.
    apply (updateInterval_saves (Int64.add cur delta) st out).
    rewrite Hadd. exact Hout.
  - intros c Hc. exact (click_adjusts c delta st Hc).
Qed.

(** C8.  Whatever the interval was, the reset entry stores exactly the
    default of 3 minutes, leaves the rest of the shared state alone, and
    saves the configuration: the write of its text opens the trace and
    the file holds it when the write succeeds. *)
Theorem reset_stores_default_and_saves (st : App) :
  let r := click mResetDefault st in
  let st' := state_of r in
  IntervalMinutes (cfg st') = 3
  /\ ReminderTitle (cfg st') = ReminderTitle (cfg st)
  /\ ReminderMessage (cfg st') = ReminderMessage (cfg st)
  /\ lastTriggeredUnix st' = lastTriggeredUnix st
  /\ isMessageShowing st' = isMessageShowing st
  /\ (forall out,
        json_MarshalIndent (cfg st') = Some out ->
        (exists rest, trace_of r = EvWriteFile out :: rest)
        /\ (writable (disk st) = true ->
            settings (disk st') = Some out)).
Proof.
  intros r st'. subst r st'. unfold click.
  pose proof (updateInterval_state defaultInterval st)
    as (Hcfg & Hlast & Hshow & _).
  rewrite Hcfg.
  cbn [with_IntervalMinutes IntervalMinutes ReminderTitle ReminderMessage].
  split; [ reflexivity | ]. split; [ reflexivity | ].
  split; [ reflexivity | ]. split; [ exact Hlast | ].
  split; [ exact Hshow | ].
  intros out Hout.
  exact (updateInterval_saves defaultInterval st out Hout).
Qed.

End IntervalController.

(** ** The reminder clock *)

Lemma dispatches_app (t u : Trace) :
  dispatches (t ++ u) = (dispatches t + dispatches u)%nat.
Proof.
  induction t as [ | e t IH ]; [ reflexivity | ].
  destruct e; cbn [app dispatches]; rewrite IH; reflexivity.
Qed.


Lemma tick_display_frame (now : Z) (st : App) :
  state_of (tick_display now st) = st
  /\ forallb is_display (trace_of (tick_display now st)) = true
  /\ dispatches (trace_of (tick_display now st)) = 0%nat.
Proof.
  unfold tick_display. rewrite bind_gets.
  destruct (isMessageShowing st); [ repeat split | ].
  rewrite !bind_gets.
  match goal with |- context [ ?a <=? ?b ] => destruct (a <=? b) end;
    repeat split.
Qed.

Lemma tick_display_showing (now : Z) (st : App) :
  isMessageShowing st = true ->
  tick_display now st
  = (tt, st, [EvSetTooltip baseTooltip; EvSetTitle mCountdown "Countdown:"]).
Proof.
  intros E. unfold tick_display. rewrite bind_gets, E. reflexivity.
Qed.

Lemma tick_trigger_run (now : Z) (st : App) :
  tick_trigger now st =
  if (GoTime.Minutes (IntervalMinutes (cfg st))
        <=? GoTime.Since now (GoTime.Unix0 (lastTriggeredUnix st)))
     && negb (isMessageShowing st)
  then (tt, store_showing true st,
        [EvStoreShowing true;
         EvGo (ReminderTitle (cfg st)) (ReminderMessage (cfg st))])
  else (tt, st, []).
Proof.
  unfold tick_trigger. rewrite !bind_gets.
  destruct (_ && _); reflexivity.
Qed.

Lemma tick_trigger_showing (now : Z) (st : App) :
  isMessageShowing st = true -> tick_trigger now st = (tt, st, []).
Proof.
  intros E. rewrite tick_trigger_run, E, andb_false_r. reflexivity.
Qed.

Lemma tick_run (now1 now2 : Z) (st : App) :
  trace_of (tick now1 now2 st)
  = trace_of (tick_display now1 st) ++ trace_of (tick_trigger now2 st)
  /\ state_of (tick now1 now2 st) = state_of (tick_trigger now2 st).
Proof.
  unfold tick.
  destruct (bind_ret_tt (tick_display now1) (tick_trigger now2) st) as [Ht Hs].
  rewrite (proj1 (tick_display_frame now1 st)) in Ht, Hs.
  split; assumption.
Qed.

(** With the interval in [1,1440] the comparison of the loop is the
    comparison of the specification: neither the product nor the clipped
    difference loses anything. *)
Lemma trigger_test_due (now : Z) (st : App) :
  minInterval <= IntervalMinutes (cfg st) <= maxInterval ->
  (GoTime.Minutes (IntervalMinutes (cfg st))
     <=? GoTime.Since now (GoTime.Unix0 (lastTriggeredUnix st))) = true
  <-> due st now.
Proof.
  intros Hn. destruct (Minutes_exact _ Hn) as [Hm Hr].
  rewrite Hm, Z.leb_le. unfold GoTime.Since, GoTime.Sub, GoTime.Unix0, due.
  apply saturate_le_iff. exact Hr.
Qed.

Lemma deliver_run (push_fails : bool) (done : Z) (tit msg : string) (st : App) :
  deliver push_fails done tit msg st =
  (tt,
   mkApp (cfg st) (GoTime.UnixNano done) false (disk st),
   EvToastPush tit msg
     :: (if push_fails then [EvPrintf WarnToast; EvMessageBox tit msg] else [])
     ++ [EvStoreShowing false; EvStoreLast (GoTime.UnixNano done)]).
Proof. destruct push_fails; reflexivity. Qed.


(** C1.  On a tick that finds [isMessageShowing] false (the interval being
    in [1,1440], as it always is), a delivery is started if and only if
    now - lastTriggered >= interval minutes, and then exactly one: the tick
    stores [true] in [isMessageShowing] and then starts the goroutine with
    the current title and message, without touching [lastTriggeredUnix];
    otherwise the tick changes nothing.  With an interval of 5 minutes, a
    tick 5 minutes less 1 second after the last trigger starts nothing and
    a tick one second later starts exactly one delivery.  The goroutine
    stores [lastTriggeredUnix] as its last step, after the toast (and the
    message box, if any) and after clearing [isMessageShowing]. *)
Theorem tick_triggers_iff_due (st : App) (now1 now2 : Z) :
  isMessageShowing st = false ->
  minInterval <= IntervalMinutes (cfg st) <= maxInterval ->
  let r := tick now1 now2 st in
  let shown := trace_of (tick_display now1 st) in
  let tit := ReminderTitle (cfg st) in
  let msg := ReminderMessage (cfg st) in
  (dispatches (trace_of r) = 1%nat <-> due st now2)
  /\ (dispatches (trace_of r) = 0%nat <-> ~ due st now2)
  /\ (due st now2 ->
      trace_of r = shown ++ [EvStoreShowing true; EvGo tit msg]
      /\ dispatches shown = 0%nat
      /\ isMessageShowing (state_of r) = true
      /\ lastTriggeredUnix (state_of r) = lastTriggeredUnix st
      /\ cfg (state_of r) = cfg st)
  /\ (~ due st now2 -> trace_of r = shown /\ state_of r = st)
  /\ (IntervalMinutes (cfg st) = 5 ->
      let last := lastTriggeredUnix st in
      dispatches
        (trace_of (tick now1 (last + 5 * GoTime.Minute - GoTime.Second) st))
      = 0%nat
      /\ dispatches (trace_of (tick now1 (last + 5 * GoTime.Minute) st))
         = 1%nat)
  /\ (forall push_fails done,
        let r' := deliver push_fails done tit msg (state_of r) in
        exists before,
          trace_of r'
          = before ++ [EvStoreShowing false; EvStoreLast (GoTime.UnixNano done)]
          /\ count_event is_store_last before = 0%nat
          /\ count_event is_toast before = 1%nat
          /\ lastTriggeredUnix (state_of r') = GoTime.UnixNano done).
Proof.
  intros Hshow Hn r shown tit msg.
  assert (Hgen : forall now,
    (due st now ->
     trace_of (tick now1 now st)
     = shown ++ [EvStoreShowing true; EvGo tit msg]
     /\ state_of (tick now1 now st) = store_showing true st)
    /\ (~ due st now ->
        trace_of (tick now1 now st) = shown
        /\ state_of (tick now1 now st) = st)).
  { intros now. destruct (tick_run now1 now st) as [Ht Hs].
    rewrite Ht, Hs, tick_trigger_run, Hshow. cbn [negb]. rewrite andb_true_r.
    pose proof (trigger_test_due now st Hn) as Hdue.
    destruct (_ <=? _); split; intros Hd.
    - split; reflexivity.
    - exfalso. apply Hd, Hdue. reflexivity.
    - apply Hdue in Hd. discriminate Hd.
    - cbv [trace_of state_of fst snd]. rewrite app_nil_r.
      split; reflexivity. }
  assert (Hshown : dispatches shown = 0%nat)
    by (apply (tick_display_frame now1 st)).
  assert (Hcount : forall now,
    (due st now -> dispatches (trace_of (tick now1 now st)) = 1%nat)
    /\ (~ due st now -> dispatches (trace_of (tick now1 now st)) = 0%nat)).
  { intros now. destruct (Hgen now) as [Hyes Hno]. split; intros Hd.
    - destruct (Hyes Hd) as [-> _]. rewrite dispatches_app, Hshown.
      reflexivity.
    - destruct (Hno Hd) as [-> _]. exact Hshown. }
  assert (Hdec : forall now, due st now \/ ~ due st now)
    by (intros now; unfold due; lia).
  split; [ | split; [ | split; [ | split; [ | split ] ] ] ].
  - split; [ | apply Hcount ].
    intros H1. destruct (Hdec now2) as [Hd | Hd]; [ exact Hd | ].
    subst r. rewrite (proj2 (Hcount now2) Hd) in H1. discriminate H1.
  - split; [ | apply Hcount ].
    intros H0 Hd. subst r. rewrite (proj1 (Hcount now2) Hd) in H0.
    discriminate H0.
  - intros Hd. destruct (proj1 (Hgen now2) Hd) as [Ht Hs].
    subst r. rewrite Ht, Hs. repeat split. exact Hshown.
  - intros Hd. exact (proj2 (Hgen now2) Hd).
  - intros H5 last. split.
    + apply Hcount. unfold due. fold last. rewrite H5. int64_unfold. lia.
    + apply Hcount. unfold due. fold last. rewrite H5. int64_unfold. lia.
  - intros push_fails done r'. subst r'. rewrite deliver_run.
    exists (EvToastPush tit msg
              :: (if push_fails
                  then [EvPrintf WarnToast; EvMessageBox tit msg] else [])).
    cbv [trace_of state_of fst snd lastTriggeredUnix].
    destruct push_fails; repeat split.
Qed.

(** C2.  A tick that finds [isMessageShowing] true starts no delivery,
    whatever the clock reads and whenever the last trigger was: it sets the
    tooltip to the base text and the countdown entry to "Countdown:" with
    nothing after it, and leaves the shared state as it was. *)
Theorem tick_while_showing_is_idle (st : App) (now1 now2 : Z) :
  isMessageShowing st = true ->
  tick now1 now2 st
  = (tt, st, [EvSetTooltip baseTooltip; EvSetTitle mCountdown "Countdown:"])
  /\ dispatches (trace_of (tick now1 now2 st)) = 0%nat
  /\ tick_trigger now2 st = (tt, st, []).
Proof.
  intros Hshow.
  assert (E : tick now1 now2 st
              = (tt, st, [EvSetTooltip baseTooltip;
                          EvSetTitle mCountdown "Countdown:"])).
  { unfold tick, bind.
    rewrite (tick_display_showing now1 st Hshow).
    rewrite (tick_trigger_showing now2 st Hshow). reflexivity. }
  split; [ exact E | ]. split.
  - rewrite E. reflexivity.
  - exact (tick_trigger_showing now2 st Hshow).
Qed.

(** C7.  A delivery pushes the toast first, once, and opens the message box
    if and only if the push returned an error, once; nothing is tried
    again.  Either way it then clears [isMessageShowing] and stores the
    clock in [lastTriggeredUnix]: the shared state after a failed push is
    the one after a successful push. *)
Theorem deliver_falls_back_once (push_fails : bool) (done : Z)
  (tit msg : string) (st : App) :
  let r := deliver push_fails done tit msg st in
  trace_of r
  = EvToastPush tit msg
      :: (if push_fails then [EvPrintf WarnToast; EvMessageBox tit msg] else [])
      ++ [EvStoreShowing false; EvStoreLast (GoTime.UnixNano done)]
  /\ count_event is_toast (trace_of r) = 1%nat
  /\ (count_event is_message_box (trace_of r) = 1%nat <-> push_fails = true)
  /\ (count_event is_message_box (trace_of r) = 0%nat <-> push_fails = false)
  /\ isMessageShowing (state_of r) = false
  /\ lastTriggeredUnix (state_of r) = GoTime.UnixNano done
  /\ cfg (state_of r) = cfg st
  /\ disk (state_of r) = disk st
  /\ state_of r = state_of (deliver (negb push_fails) done tit msg st).
Proof.
  cbv zeta. rewrite !deliver_run.
  cbv [trace_of state_of fst snd].
  destruct push_fails; cbn; repeat split; intros; try discriminate;
    reflexivity.
Qed.

(** ** Every state the loop reaches keeps the invariant of the data model *)

Section Reachable.

Context {codec : JSONCodec}.

Lemma tick_cfg (now1 now2 : Z) (st : App) :
  cfg (state_of (tick now1 now2 st)) = cfg st.
Proof.
  rewrite (proj2 (tick_run now1 now2 st)), tick_trigger_run.
  destruct (_ && _); reflexivity.
Qed.

Lemma handle_config_ok (i : Input) (st : App) :
  config_ok (cfg st) -> config_ok (cfg (state_of (handle i st))).
Proof.
  intros Hok. destruct i as [n1 n2 | c | f t m | | d]; cbn [handle].
  - rewrite tick_cfg. exact Hok.
  - assert (Hupd : forall n,
              config_ok (cfg (state_of (updateInterval n st)))).
    { intros n. rewrite (proj1 (updateInterval_state n st)).
      destruct Hok as (_ & Ht & Hm).
      repeat split; cbn [with_IntervalMinutes IntervalMinutes
                           ReminderTitle ReminderMessage];
        try assumption; apply clamp_interval_range. }
    destruct c; unfold click; rewrite ?bind_gets;
      try apply Hupd; exact Hok.
  - destruct f; exact Hok.
  - exact Hok.
  - exact Hok.
Qed.

(** The three steps of a delivery, taken in a row, are the goroutine. *)
Lemma run_delivery (push_fails : bool) (done : Z) (tit msg : string)
  (st : App) :
  run (delivery push_fails done tit msg) st
  = deliver push_fails done tit msg st.
Proof. destruct push_fails; reflexivity. Qed.

Lemma run_config_ok (inputs : list Input) (st : App) :
  config_ok (cfg st) -> config_ok (cfg (state_of (run inputs st))).
Proof.
  revert st. induction inputs as [ | i rest IH ]; intros st Hok.
  - exact Hok.
  - cbn [run].
    rewrite (proj2 (bind_ret_tt (handle i) (run rest) st)).
    apply IH, handle_config_ok, Hok.
Qed.

(** From any disk and any start time, after any sequence of ticks, clicks
    and deliveries, the interval is in [1,1440] and the texts are not
    empty. *)
Lemma reachable_config_ok (dk : Disk) (start : Z) (inputs : list Input) :
  config_ok (cfg (state_of (run inputs (result_of (onReady start dk))))).
Proof.
  apply run_config_ok. unfold onReady.
  pose proof (loadConfig_ok dk) as Hok.
  unfold bind, gets, ret, result_of in *.
  destruct (loadConfig dk) as [[c dk'] t]. exact Hok.
Qed.

End Reachable.

(** ** Worked examples *)

(** The scenario of the specification, tick by tick: with an interval of 5
    minutes the 299 ticks before the deadline start nothing, the 300th
    starts one delivery, and while it shows the next 600 ticks start
    none. *)
Example five_minutes_scenario :
  dispatches (trace_of (@run Sample.codec (Sample.ticks 1 299) Sample.app0))
  = 0%nat
  /\ dispatches (trace_of (@run Sample.codec (Sample.ticks 1 300) Sample.app0))
     = 1%nat
  /\ dispatches (trace_of (@run Sample.codec (Sample.ticks 1 900) Sample.app0))
     = 1%nat.
Proof. vm_compute. repeat split. Qed.

(** After the delivery has completed, the countdown restarts from the
    completion time, whether the toast worked or not. *)
Example delivery_restarts_countdown :
  let inputs push_fails :=
    Sample.ticks 1 300
    ++ delivery push_fails (310 * GoTime.Second) "Stretch" "Stand up"
    ++ Sample.ticks 311 299 in
  dispatches (trace_of (@run Sample.codec (inputs false) Sample.app0)) = 1%nat
  /\ dispatches (trace_of (@run Sample.codec (inputs true) Sample.app0)) = 1%nat
  /\ dispatches
       (trace_of (@run Sample.codec (inputs false ++ Sample.ticks 610 1)
                    Sample.app0)) = 2%nat.
Proof. vm_compute. repeat split. Qed.

(** The goroutine clears [isMessageShowing] before it stores the clock: a
    tick the scheduler runs between the two stores finds the flag false and
    the former [lastTriggeredUnix], and so starts a delivery. *)
Example tick_between_the_two_stores :
  let t := 310 * GoTime.Second in
  let inputs :=
    Sample.ticks 1 300
    ++ [DeliveryShown false "Stretch" "Stand up"; DeliveryCleared;
        Tick t t; DeliveryStamped t] in
  dispatches (trace_of (@run Sample.codec inputs Sample.app0)) = 2%nat.
Proof. vm_compute. reflexivity. Qed.

Example load_99999 :
  let r := @loadConfig Sample.codec
             (Sample.disk_of (Some Sample.file_99999)) in
  result_of r = mkConfig 1440 "Posture Reminder" "Time to check your posture!"
  /\ settings (state_of r) = Some (Sample.text_of (result_of r))
  /\ trace_of r = [EvWriteFile (Sample.text_of (result_of r))].
Proof. vm_compute. repeat split. Qed.

Example load_missing_file :
  let r := @loadConfig Sample.codec (Sample.disk_of None) in
  result_of r = mkConfig 3 "Posture Reminder" "Time to check your posture!"
  /\ settings (state_of r) = Some (Sample.text_of defaultCfg)
  /\ trace_of r = [EvWriteFile (Sample.text_of defaultCfg)].
Proof. vm_compute. repeat split. Qed.

Example adjust_at_the_ceiling_still_writes :
  let st := mkApp (mkConfig 1440 "Stretch" "Stand up") 0 false
              (Sample.disk_of None) in
  let r := @click Sample.codec mPlus1h st in
  cfg (state_of r) = cfg st
  /\ exists rest, trace_of r = EvWriteFile (Sample.text_of (cfg st)) :: rest.
Proof. vm_compute. split; [ reflexivity | eexists; reflexivity ]. Qed.

(** ** The theorems at concrete inputs *)

Lemma tick_triggers_iff_due_witness :
  let now := 300 * GoTime.Second in
  isMessageShowing Sample.app0 = false
  /\ minInterval <= IntervalMinutes (cfg Sample.app0) <= maxInterval
  /\ due Sample.app0 now
  /\ ~ due Sample.app0 (now - GoTime.Second)
  /\ dispatches (trace_of (tick now now Sample.app0)) = 1%nat
  /\ isMessageShowing (state_of (tick now now Sample.app0)) = true
  /\ state_of (tick now (now - GoTime.Second) Sample.app0) = Sample.app0
  /\ dispatches (trace_of (tick now (0 + 5 * GoTime.Minute) Sample.app0))
     = 1%nat.
Proof.
  intros now.
  assert (Hs : isMessageShowing Sample.app0 = false) by reflexivity.
  assert (Hn : minInterval <= IntervalMinutes (cfg Sample.app0) <= maxInterval)
    by (split; intro E; discriminate E).
  assert (Hd : due Sample.app0 now) by (intro E; discriminate E).
  assert (Hnd : ~ due Sample.app0 (now - GoTime.Second))
    by (intro E; apply E; reflexivity).
  assert (H5 : IntervalMinutes (cfg Sample.app0) = 5) by reflexivity.
  pose proof (tick_triggers_iff_due Sample.app0 now now Hs Hn) as T.
  pose proof (tick_triggers_iff_due Sample.app0 now (now - GoTime.Second)
                Hs Hn) as U.
  cbv zeta in T, U.
  destruct T as (T1 & _ & T3 & _ & T5 & _).
  destruct U as (_ & _ & _ & U4 & _).
  refine (conj Hs (conj Hn (conj Hd (conj Hnd (conj _ (conj _ (conj _ _))))))).
  - exact (proj2 T1 Hd).
  - exact (proj1 (proj2 (proj2 (T3 Hd)))).
  - exact (proj2 (U4 Hnd)).
  - exact (proj2 (T5 H5)).
Defined.

Lemma tick_while_showing_is_idle_witness :
  let st := mkApp Sample.stretch 0 true (Sample.disk_of None) in
  let now := 86400 * GoTime.Second in
  isMessageShowing st = true
  /\ dispatches (trace_of (tick now now st)) = 0%nat.
Proof.
  intros st now.
  assert (Hs : isMessageShowing st = true) by reflexivity.
  refine (conj Hs _).
  exact (proj1 (proj2 (tick_while_showing_is_idle st now now Hs))).
Defined.

Lemma adjust_clamps_and_always_saves_witness :
  let st := Sample.app0 in
  let r := @updateInterval Sample.codec (Int64.add 5 60) st in
  Int64.in_range (5 + 60)
  /\ Int64.in_range (5 + 120)
  /\ 60 <= 120
  /\ command_delta mPlus1h = Some 60
  /\ IntervalMinutes (cfg (state_of r)) = clamp_interval (5 + 60)
  /\ IntervalMinutes (cfg (state_of r))
     <= IntervalMinutes
          (cfg (state_of (@updateInterval Sample.codec (Int64.add 5 120) st)))
  /\ settings (disk (state_of r))
     = Some (Sample.text_of (cfg (state_of r)))
  /\ @click Sample.codec mPlus1h st = r.
Proof.
  intros st r.
  assert (R1 : Int64.in_range (5 + 60))
    by (split; intro E; discriminate E).
  assert (R2 : Int64.in_range (5 + 120))
    by (split; intro E; discriminate E).
  assert (L : 60 <= 120) by (intro E; discriminate E).
  assert (C : command_delta mPlus1h = Some 60) by reflexivity.
  pose proof (@adjust_clamps_and_always_saves Sample.codec st 60 R1) as T.
  cbv zeta in T.
  destruct T as (T1 & _ & _ & _ & _ & _ & T7 & T8 & T9).
  refine (conj R1 (conj R2 (conj L (conj C (conj T1 (conj _ (conj _ _))))))).
  - exact (T7 120 R2 L).
  - exact (proj2 (T8 _ eq_refl) eq_refl).
  - exact (T9 mPlus1h C).
Defined.

Lemma reset_stores_default_and_saves_witness :
  let st := mkApp (mkConfig 1440 "Stretch" "Stand up") 0 false
              (Sample.disk_of None) in
  let r := @click Sample.codec mResetDefault st in
  IntervalMinutes (cfg (state_of r)) = 3
  /\ settings (disk (state_of r)) = Some (Sample.text_of (cfg (state_of r))).
Proof.
  intros st r.
  pose proof (@reset_stores_default_and_saves Sample.codec st) as T.
  cbv zeta in T.
  destruct T as (T1 & _ & _ & _ & _ & T6).
  refine (conj T1 _).
  exact (proj2 (T6 _ eq_refl) eq_refl).
Defined.

Lemma deliver_falls_back_once_witness :
  let r := deliver true (310 * GoTime.Second) "Stretch" "Stand up"
             Sample.app0 in
  count_event is_message_box (trace_of r) = 1%nat
  /\ isMessageShowing (state_of r) = false
  /\ lastTriggeredUnix (state_of r) = 310 * GoTime.Second.
Proof.
  intros r.
  pose proof (deliver_falls_back_once true (310 * GoTime.Second)
                "Stretch" "Stand up" Sample.app0) as T.
  cbv zeta in T.
  destruct T as (_ & _ & T3 & _ & T5 & T6 & _).
  refine (conj (proj2 T3 eq_refl) (conj T5 _)).
  exact T6.
Defined.

Lemma loadConfig_sanitizes_and_resaves_witness :
  let dk := Sample.disk_of (Some Sample.file_99999) in
  let c := mkConfig 99999 "" "" in
  let r := @loadConfig Sample.codec dk in
  settings dk = Some Sample.file_99999
  /\ @json_Unmarshal Sample.codec Sample.file_99999 = Some c
  /\ maxInterval < IntervalMinutes c
  /\ IntervalMinutes (result_of r) = 1440
  /\ ReminderTitle (result_of r) = "Posture Reminder"%string
  /\ state_of r = mkDisk (Some (Sample.text_of (result_of r))) true.
Proof.
  intros dk c r.
  assert (Hs : settings dk = Some Sample.file_99999) by reflexivity.
  assert (Hu : @json_Unmarshal Sample.codec Sample.file_99999 = Some c)
    by reflexivity.
  assert (Hb : maxInterval < IntervalMinutes c) by reflexivity.
  pose proof (@loadConfig_sanitizes_and_resaves Sample.codec dk
                Sample.file_99999 c Hs Hu (or_intror (or_introl Hb))) as T.
  cbv zeta in T.
  destruct T as (_ & T2 & _ & _ & T5 & T6).
  refine (conj Hs (conj Hu (conj Hb (conj (T5 eq_refl) (conj T2 _))))).
  exact (proj2 (T6 _ eq_refl)).
Defined.

Lemma loadConfig_defaults_when_unreadable_witness :
  let missing := Sample.disk_of None in
  let garbled := Sample.disk_of (Some "interval = 5"%string) in
  settings missing = None
  /\ @json_Unmarshal Sample.codec "interval = 5" = None
  /\ result_of (@loadConfig Sample.codec missing)
     = mkConfig 3 "Posture Reminder" "Time to check your posture!"
  /\ settings (state_of (@loadConfig Sample.codec missing))
     = Some (Sample.text_of defaultCfg)
  /\ result_of (@loadConfig Sample.codec garbled)
     = mkConfig 3 "Posture Reminder" "Time to check your posture!"
  /\ settings (state_of (@loadConfig Sample.codec garbled))
     = Some (Sample.text_of defaultCfg).
Proof.
  intros missing garbled.
  assert (Hs : settings missing = None) by reflexivity.
  assert (Hu : @json_Unmarshal Sample.codec "interval = 5" = None)
    by reflexivity.
  pose proof (@loadConfig_defaults_when_unreadable Sample.codec missing
                (or_introl Hs)) as T.
  pose proof (@loadConfig_defaults_when_unreadable Sample.codec garbled
                (or_intror (ex_intro _ "interval = 5"%string
                              (conj eq_refl Hu)))) as U.
  cbv zeta in T, U.
  destruct T as (T1 & T2 & _). destruct U as (U1 & U2 & _).
  refine (conj Hs (conj Hu (conj T1 (conj _ (conj U1 _))))).
  - refine (proj2 (T2 (Sample.text_of defaultCfg) _) eq_refl).
    rewrite T1. reflexivity.
  - refine (proj2 (U2 (Sample.text_of defaultCfg) _) eq_refl).
    rewrite U1. reflexivity.
Defined.


(** ** Runs of the loop *)

Section LoopRuns.

Context {codec : JSONCodec}.

Lemma run_cons (i : Input) (rest : list Input) (st : App) :
  trace_of (run (i :: rest) st)
  = trace_of (handle i st) ++ trace_of (run rest (state_of (handle i st)))
  /\ state_of (run (i :: rest) st) = state_of (run rest (state_of (handle i st))).
Proof. cbn [run]. apply bind_ret_tt. Qed.

Lemma run_app (xs ys : list Input) (st : App) :
  trace_of (run (xs ++ ys) st)
  = trace_of (run xs st) ++ trace_of (run ys (state_of (run xs st)))
  /\ state_of (run (xs ++ ys) st) = state_of (run ys (state_of (run xs st))).
Proof.
  revert st. induction xs as [ | i xs IH ]; intros st.
  - split; reflexivity.
  - cbn [app]. destruct (run_cons i (xs ++ ys) st) as [Ht Hs].
    destruct (run_cons i xs st) as [Ht' Hs'].
    destruct (IH (state_of (handle i st))) as [IHt IHs].
    rewrite Ht, Hs, Ht', Hs', IHt, IHs, app_assoc. split; reflexivity.
Qed.

Lemma run_three (i1 i2 i3 : Input) (st : App) :
  let s1 := state_of (handle i1 st) in
  let s2 := state_of (handle i2 s1) in
  trace_of (run [i1; i2; i3] st)
  = trace_of (handle i1 st) ++ trace_of (handle i2 s1)
      ++ trace_of (handle i3 s2)
  /\ state_of (run [i1; i2; i3] st) = state_of (handle i3 s2).
Proof.
  cbv zeta.
  destruct (run_cons i1 [i2; i3] st) as [T1 S1].
  destruct (run_cons i2 [i3] (state_of (handle i1 st))) as [T2 S2].
  destruct (run_cons i3 [] (state_of (handle i2 (state_of (handle i1 st)))))
    as [T3 S3].
  rewrite T1, S1, T2, S2, T3, S3. cbn [run].
  unfold ret at 1. cbv [trace_of snd]. rewrite app_nil_r.
  split; reflexivity.
Qed.

Lemma run_two_state (i1 i2 : Input) (st : App) :
  state_of (run [i1; i2] st) = state_of (handle i2 (state_of (handle i1 st))).
Proof.
  destruct (run_cons i1 [i2] st) as [_ S1].
  destruct (run_cons i2 [] (state_of (handle i1 st))) as [_ S2].
  rewrite S1, S2. reflexivity.
Qed.

Lemma saveConfig_dispatches (c : Config) (dk : Disk) :
  dispatches (trace_of (saveConfig c dk)) = 0%nat.
Proof.
  rewrite saveConfig_run.
  destruct (json_MarshalIndent c); [ destruct (writable dk) | ]; reflexivity.
Qed.

(** [updateInterval] starts no delivery and touches neither the flag nor
    the time of the last trigger. *)
Lemma updateInterval_frame (n : Z) (st : App) :
  dispatches (trace_of (updateInterval n st)) = 0%nat
  /\ isMessageShowing (state_of (updateInterval n st)) = isMessageShowing st
  /\ lastTriggeredUnix (state_of (updateInterval n st)) = lastTriggeredUnix st.
Proof.
  pose proof (updateInterval_state n st) as (_ & Hl & Hs & _).
  split; [ | split; assumption ].
  pose proof (updateInterval_run n st) as H. cbv zeta in H.
  pose proof (saveConfig_dispatches
                (with_IntervalMinutes (clamp_interval n) (cfg st)) (disk st))
    as Hd.
  destruct (saveConfig _ (disk st)) as [[e dk'] t].
  rewrite H. cbv [trace_of snd] in *.
  rewrite !dispatches_app, Hd. destruct e; reflexivity.
Qed.

Lemma click_frame (c : Command) (st : App) :
  dispatches (trace_of (click c st)) = 0%nat
  /\ isMessageShowing (state_of (click c st)) = isMessageShowing st
  /\ lastTriggeredUnix (state_of (click c st)) = lastTriggeredUnix st.
Proof.
  destruct c; unfold click; rewrite ?bind_gets;
    try apply updateInterval_frame; repeat split.
Qed.

(** A tick starts at most one delivery; if it starts one the flag is set;
    it never clears the flag and never moves the time of the last
    trigger. *)
Lemma tick_frame (now1 now2 : Z) (st : App) :
  let r := tick now1 now2 st in
  (dispatches (trace_of r) <= 1)%nat
  /\ (dispatches (trace_of r) = 1%nat -> isMessageShowing (state_of r) = true)
  /\ (isMessageShowing st = true ->
      dispatches (trace_of r) = 0%nat /\ isMessageShowing (state_of r) = true)
  /\ (dispatches (trace_of r) = 0%nat ->
      isMessageShowing (state_of r) = isMessageShowing st)
  /\ lastTriggeredUnix (state_of r) = lastTriggeredUnix st.
Proof.
  cbv zeta. destruct (tick_run now1 now2 st) as [Ht Hs].
  rewrite Ht, Hs, dispatches_app, (proj2 (proj2 (tick_display_frame now1 st))).
  rewrite tick_trigger_run.
  destruct (isMessageShowing st) eqn:Hshow.
  - rewrite andb_false_r. cbv [trace_of state_of fst snd dispatches].
    rewrite Hshow. repeat split; auto.
  - destruct (_ && _); cbv [trace_of state_of fst snd dispatches store_showing
                             isMessageShowing lastTriggeredUnix plus];
      repeat split; auto; try discriminate.
Qed.

End LoopRuns.

Section LoopProperties.

Context {codec : JSONCodec}.

Lemma handle_loop_frame (i : Input) (st : App) :
  is_loop_input i = true ->
  let r := handle i st in
  (dispatches (trace_of r) <= 1)%nat
  /\ (dispatches (trace_of r) = 1%nat -> isMessageShowing (state_of r) = true)
  /\ (isMessageShowing st = true ->
      dispatches (trace_of r) = 0%nat /\ isMessageShowing (state_of r) = true)
  /\ lastTriggeredUnix (state_of r) = lastTriggeredUnix st.
Proof.
  destruct i as [n1 n2 | c | f t m | | d]; intros Hl; try discriminate Hl;
    cbn [handle]; cbv zeta.
  - pose proof (tick_frame n1 n2 st) as (H1 & H2 & H3 & _ & H5).
    repeat split; try assumption; apply H3; assumption.
  - pose proof (click_frame c st) as (H1 & H2 & H3).
    rewrite H1, H2, H3. repeat split; auto; intros E; discriminate E.
Qed.

Lemma loop_run_frame (inputs : list Input) (st : App) :
  forallb is_loop_input inputs = true ->
  let r := run inputs st in
  (dispatches (trace_of r) <= 1)%nat
  /\ (dispatches (trace_of r) = 1%nat -> isMessageShowing (state_of r) = true)
  /\ (isMessageShowing st = true ->
      dispatches (trace_of r) = 0%nat /\ isMessageShowing (state_of r) = true)
  /\ lastTriggeredUnix (state_of r) = lastTriggeredUnix st.
Proof.
  revert st. induction inputs as [ | i rest IH ]; intros st Hall.
  - cbv zeta. cbn. repeat split; auto; intros E; discriminate E.
  - cbn [forallb] in Hall. apply andb_prop in Hall. destruct Hall as [Hi Hrest].
    cbv zeta. destruct (run_cons i rest st) as [Ht Hs]. rewrite Ht, Hs.
    rewrite dispatches_app.
    pose proof (handle_loop_frame i st Hi) as (A1 & A2 & A3 & A4).
    pose proof (IH (state_of (handle i st)) Hrest) as (B1 & B2 & B3 & B4).
    cbv zeta in A1, A2, A3, A4, B1, B2, B3, B4.
    rewrite B4, A4.
    assert (Hone : dispatches (trace_of (handle i st)) = 1%nat ->
                   dispatches
                     (trace_of (run rest (state_of (handle i st)))) = 0%nat
                   /\ isMessageShowing
                        (state_of (run rest (state_of (handle i st)))) = true)
      by (intros E; apply B3, A2, E).
    split; [ | split; [ | split ] ].
    + destruct (dispatches (trace_of (handle i st))) as [ | [ | k ] ] eqn:E;
        [ exact B1 | rewrite (proj1 (Hone eq_refl)); auto | lia ].
    + intros E1.
      destruct (dispatches (trace_of (handle i st))) as [ | [ | k ] ] eqn:E;
        [ apply B2; exact E1 | apply (Hone eq_refl) | lia ].
    + intros Hshow. destruct (A3 Hshow) as [A3d A3s].
      destruct (B3 A3s) as [B3d B3s]. rewrite A3d, B3d. split; auto.
    + reflexivity.
Qed.

(** X1.  While a notification is showing, no run of ticks and clicks (in
    any number and order, with any clock readings, the interval changed or
    reset on the way) starts a delivery: the flag stays set and the time of
    the last trigger stays put until a goroutine clears them. *)
Theorem showing_blocks_every_loop_run (inputs : list Input) (st : App) :
  forallb is_loop_input inputs = true ->
  isMessageShowing st = true ->
  dispatches (trace_of (run inputs st)) = 0%nat
  /\ isMessageShowing (state_of (run inputs st)) = true
  /\ lastTriggeredUnix (state_of (run inputs st)) = lastTriggeredUnix st.
Proof.
  intros Hall Hshow.
  pose proof (loop_run_frame inputs st Hall) as (_ & _ & H3 & H4).
  destruct (H3 Hshow) as [Hd Hs]. repeat split; assumption.
Qed.

(** X2.  From any state, a run of ticks and clicks alone starts at most one
    delivery, whatever the clocks read and however the interval is changed
    in between; when it has started one, the flag is set at the end. *)
Theorem loop_run_starts_at_most_one (inputs : list Input) (st : App) :
  forallb is_loop_input inputs = true ->
  (dispatches (trace_of (run inputs st)) <= 1)%nat
  /\ (dispatches (trace_of (run inputs st)) = 1%nat ->
      isMessageShowing (state_of (run inputs st)) = true).
Proof.
  intros Hall.
  pose proof (loop_run_frame inputs st Hall) as (H1 & H2 & _).
  split; assumption.
Qed.

Lemma tick_not_due (now1 now2 : Z) (st : App) :
  isMessageShowing st = false ->
  minInterval <= IntervalMinutes (cfg st) <= maxInterval ->
  ~ due st now2 ->
  state_of (tick now1 now2 st) = st
  /\ dispatches (trace_of (tick now1 now2 st)) = 0%nat.
Proof.
  intros Hshow Hn Hnd. destruct (tick_run now1 now2 st) as [Ht Hs].
  rewrite Ht, Hs, dispatches_app, tick_trigger_run.
  rewrite (proj2 (proj2 (tick_display_frame now1 st))).
  pose proof (trigger_test_due now2 st Hn) as Hdue.
  destruct (_ <=? _); [ exfalso; apply Hnd, Hdue; reflexivity | ].
  split; reflexivity.
Qed.

Lemma tick_is_due (now1 now2 : Z) (st : App) :
  isMessageShowing st = false ->
  minInterval <= IntervalMinutes (cfg st) <= maxInterval ->
  due st now2 ->
  state_of (tick now1 now2 st) = store_showing true st
  /\ dispatches (trace_of (tick now1 now2 st)) = 1%nat.
Proof.
  intros Hshow Hn Hd. destruct (tick_run now1 now2 st) as [Ht Hs].
  rewrite Ht, Hs, dispatches_app, tick_trigger_run, Hshow.
  rewrite (proj2 (proj2 (tick_display_frame now1 st))).
  apply (trigger_test_due now2 st Hn) in Hd. rewrite Hd.
  split; reflexivity.
Qed.

Lemma early_ticks_idle (clocks : list Z) (st : App) :
  isMessageShowing st = false ->
  minInterval <= IntervalMinutes (cfg st) <= maxInterval ->
  Forall (fun t => ~ due st t) clocks ->
  state_of (run (ticks_at clocks) st) = st
  /\ dispatches (trace_of (run (ticks_at clocks) st)) = 0%nat.
Proof.
  intros Hshow Hn Hall. induction Hall as [ | t clocks Ht Hall IH ].
  - split; reflexivity.
  - cbn [ticks_at map]. fold (ticks_at clocks).
    destruct (run_cons (Tick t t) (ticks_at clocks) st) as [Htr Hst].
    cbn [handle] in Htr, Hst.
    destruct (tick_not_due t t st Hshow Hn Ht) as [Es Ed].
    rewrite Htr, Hst, Es, dispatches_app, Ed. exact IH.
Qed.

(** X3.  After a delivery has completed when the clock read [done], toast
    or message box alike, ticks whose clock is less than one interval past
    [done] start nothing and leave the state alone, and the first tick at
    or past [done] plus the interval starts exactly one delivery. *)
Theorem next_reminder_one_interval_after_delivery
  (push_fails : bool) (done : Z) (tit msg : string) (st : App)
  (clocks : list Z) (t : Z) :
  Int64.in_range done ->
  minInterval <= IntervalMinutes (cfg st) <= maxInterval ->
  Forall (fun u => u < done + IntervalMinutes (cfg st) * GoTime.Minute) clocks ->
  done + IntervalMinutes (cfg st) * GoTime.Minute <= t ->
  let st1 := state_of (run (delivery push_fails done tit msg) st) in
  state_of (run (ticks_at clocks) st1) = st1
  /\ dispatches (trace_of (run (ticks_at clocks) st1)) = 0%nat
  /\ dispatches (trace_of (run (ticks_at (clocks ++ [t])) st1)) = 1%nat.
Proof.
  intros Hdone Hn Hearly Hlate st1.
  assert (E1 : st1 = mkApp (cfg st) done false (disk st)).
  { subst st1. rewrite run_delivery, deliver_run.
    unfold GoTime.UnixNano. rewrite (wrap_id done Hdone). reflexivity. }
  assert (Hshow : isMessageShowing st1 = false) by (rewrite E1; reflexivity).
  assert (Hn1 : minInterval <= IntervalMinutes (cfg st1) <= maxInterval)
    by (rewrite E1; exact Hn).
  assert (Hidle : Forall (fun u => ~ due st1 u) clocks).
  { eapply Forall_impl; [ | exact Hearly ]. intros u Hu. cbv beta in Hu.
    rewrite E1. unfold due. cbn [cfg lastTriggeredUnix]. lia. }
  destruct (early_ticks_idle clocks st1 Hshow Hn1 Hidle) as [Es Ed].
  split; [ exact Es | ]. split; [ exact Ed | ].
  unfold ticks_at. rewrite map_app. fold (ticks_at clocks).
  destruct (run_app (ticks_at clocks) (map (fun t => Tick t t) [t]) st1)
    as [Htr _].
  rewrite Htr, dispatches_app, Ed, Es. cbn [map].
  destruct (run_cons (Tick t t) [] st1) as [Htr' _]. rewrite Htr'.
  cbn [handle run]. rewrite dispatches_app.
  assert (Hd : due st1 t).
  { rewrite E1. unfold due. cbn [cfg lastTriggeredUnix]. lia. }
  rewrite (proj2 (tick_is_due t t st1 Hshow Hn1 Hd)). reflexivity.
Qed.

(** X4.  The goroutine clears the flag before it stores the clock.  When
    the interval has elapsed since the former trigger, a tick scheduled
    between these two stores starts a second delivery at once and the flag
    is set again when the goroutine ends; the same tick scheduled after
    both stores, less than one interval after [done], starts nothing. *)
Theorem tick_between_stores_starts_delivery (st : App) (now done : Z) :
  isMessageShowing st = true ->
  minInterval <= IntervalMinutes (cfg st) <= maxInterval ->
  due st now ->
  Int64.in_range done ->
  now < done + IntervalMinutes (cfg st) * GoTime.Minute ->
  let racy := run [DeliveryCleared; Tick now now; DeliveryStamped done] st in
  let orderly := run [DeliveryCleared; DeliveryStamped done; Tick now now] st in
  dispatches (trace_of racy) = 1%nat
  /\ isMessageShowing (state_of racy) = true
  /\ lastTriggeredUnix (state_of racy) = done
  /\ dispatches (trace_of orderly) = 0%nat
  /\ isMessageShowing (state_of orderly) = false
  /\ lastTriggeredUnix (state_of orderly) = done.
Proof.
  intros Hshow Hn Hd Hdone Hearly racy orderly.
  set (st1 := store_showing false st).
  set (st2 := store_last done st1).
  assert (Hs : forall s, handle (DeliveryStamped done) s
                         = (tt, store_last done s, [EvStoreLast done])).
  { intros s. cbn [handle]. unfold GoTime.UnixNano.
    rewrite (wrap_id done Hdone). reflexivity. }
  assert (H1 : due st1 now) by exact Hd.
  assert (H2 : ~ due st2 now).
  { unfold due, st2, st1. cbn [store_last store_showing cfg lastTriggeredUnix].
    lia. }
  destruct (tick_is_due now now st1 eq_refl Hn H1) as [Ts Td].
  destruct (tick_not_due now now st2 eq_refl Hn H2) as [Us Ud].
  pose proof (run_three DeliveryCleared (Tick now now) (DeliveryStamped done) st)
    as [Rt Rs].
  pose proof (run_three DeliveryCleared (DeliveryStamped done) (Tick now now) st)
    as [Ot Os].
  cbv zeta in Rt, Rs, Ot, Os.
  change (state_of (handle DeliveryCleared st)) with st1 in Rt, Rs, Ot, Os.
  change (handle (Tick now now)) with (tick now now) in Rt, Rs, Ot, Os.
  rewrite Ts in Rt, Rs. rewrite !Hs in Rt, Rs, Ot, Os.
  change (state_of (tt, store_last done st1, [EvStoreLast done]))
    with st2 in Ot, Os.
  rewrite Us in Os.
  subst racy orderly. rewrite Rt, Rs, Ot, Os.
  rewrite !dispatches_app, Td, Ud.
  repeat split.
Qed.

End LoopProperties.

(** ** Settings and interval across the whole program *)

Section StoreProperties.

Context {codec : JSONCodec}.

Lemma defaultCfg_ok : config_ok defaultCfg.
Proof.
  unfold config_ok, defaultCfg, minInterval, maxInterval, defaultInterval.
  cbn. repeat split; try lia; discriminate.
Qed.

Lemma loadConfig_quiet_on_valid (dk : Disk) (data : string) (c : Config) :
  settings dk = Some data ->
  json_Unmarshal data = Some c ->
  config_ok c ->
  loadConfig dk = (c, dk, []).
Proof.
  intros Hs Hu Hok.
  rewrite (loadConfig_decoded dk data c Hs Hu), (sanitize_fixpoint c Hok).
  reflexivity.
Qed.

(** A load either finds a valid file and does nothing, or returns a valid
    configuration that it has passed to [saveConfig]. *)
Lemma loadConfig_cases (dk : Disk) :
  (exists data c,
      settings dk = Some data /\ json_Unmarshal data = Some c
      /\ config_ok c /\ loadConfig dk = (c, dk, []))
  \/ (exists c' pre post,
        config_ok c'
        /\ loadConfig dk
           = let '(saveErr, dk', t) := saveConfig c' dk in
             (c', dk', pre ++ t ++ post saveErr)).
Proof.
  destruct (settings dk) as [data | ] eqn:Hs;
    [ destruct (json_Unmarshal data) as [c | ] eqn:Hu | ].
  - destruct (snd (sanitize c)) eqn:Hneeds.
    + right. exists (fst (sanitize c)), [],
        (fun e => match e with
                  | Some _ => [EvPrintf WarnAdjustedNotSaved]
                  | None => []
                  end).
      split; [ apply sanitize_ok | ].
      rewrite (loadConfig_decoded dk data c Hs Hu), Hneeds. reflexivity.
    + left. exists data, c. apply sanitize_needsSave in Hneeds.
      split; [ reflexivity | ]. split; [ exact Hu | ].
      split; [ exact Hneeds | ].
      exact (loadConfig_quiet_on_valid dk data c Hs Hu Hneeds).
  - right. destruct (loadConfig_fallback dk) as (pre & _ & E);
      [ right; exists data; split; assumption | ].
    exists defaultCfg, pre,
      (fun e => match e with
                | Some _ => [EvPrintf WarnDefaultNotWritten]
                | None => []
                end).
    split; [ apply defaultCfg_ok | exact E ].
  - right. destruct (loadConfig_fallback dk) as (pre & _ & E);
      [ left; assumption | ].
    exists defaultCfg, pre,
      (fun e => match e with
                | Some _ => [EvPrintf WarnDefaultNotWritten]
                | None => []
                end).
    split; [ apply defaultCfg_ok | exact E ].
Qed.

(** X5.  In every state the program reaches (any disk at start, any
    schedule of ticks, clicks and delivery steps) the configuration keeps
    the invariant, and each of the eight adjusting entries stores exactly
    the current interval plus its minutes clamped to [1,1440]: the
    wrap-around of Go's addition is never met. *)
Theorem reachable_click_never_wraps
  (dk : Disk) (start : Z) (inputs : list Input) (c : Command) (delta : Z) :
  command_delta c = Some delta ->
  let st := state_of (run inputs (result_of (onReady start dk))) in
  config_ok (cfg st)
  /\ IntervalMinutes (cfg (state_of (click c st)))
     = clamp_interval (IntervalMinutes (cfg st) + delta)
  /\ config_ok (cfg (state_of (click c st))).
Proof.
  intros Hc st.
  pose proof (reachable_config_ok dk start inputs) as Hok. fold st in Hok.
  split; [ exact Hok | ].
  rewrite (click_adjusts c delta st Hc).
  pose proof (menu_sum_in_range c delta st Hc (proj1 Hok)) as Hsum.
  pose proof (updateInterval_state
                (Int64.add (IntervalMinutes (cfg st)) delta) st) as (Hcfg & _).
  rewrite Hcfg. unfold Int64.add. rewrite (wrap_id _ Hsum).
  cbn [with_IntervalMinutes IntervalMinutes]. split; [ reflexivity | ].
  destruct Hok as (_ & Ht & Hm).
  repeat split; cbn [ReminderTitle ReminderMessage IntervalMinutes];
    try assumption; apply clamp_interval_range.
Qed.

(** X6.  What [updateInterval] saved is what the next start loads: on a
    disk that takes the write, with a codec that decodes the saved text to
    the configuration it came from, [loadConfig] on the disk left by
    [updateInterval] returns the configuration in memory, writes nothing
    and warns about nothing. *)
Theorem saved_interval_is_loaded_back (st : App) (n : Z) (out : string) :
  config_ok (cfg st) ->
  writable (disk st) = true ->
  let st' := state_of (updateInterval n st) in
  json_MarshalIndent (cfg st') = Some out ->
  json_Unmarshal out = Some (cfg st') ->
  loadConfig (disk st') = (cfg st', disk st', [])
  /\ forall start, cfg (result_of (onReady start (disk st'))) = cfg st'.
Proof.
  intros Hok Hw st' Hout Hback.
  pose proof (updateInterval_state n st) as (Hcfg & _). fold st' in Hcfg.
  assert (Hset : settings (disk st') = Some out).
  { apply (updateInterval_saves n st out); [ | exact Hw ].
    rewrite <- Hcfg. exact Hout. }
  assert (Hok' : config_ok (cfg st')).
  { rewrite Hcfg. destruct Hok as (_ & Ht & Hm).
    repeat split; cbn [with_IntervalMinutes ReminderTitle ReminderMessage
                         IntervalMinutes];
      try assumption; apply clamp_interval_range. }
  pose proof (loadConfig_quiet_on_valid (disk st') out (cfg st')
                Hset Hback Hok') as Hload.
  split; [ exact Hload | ].
  intros start. unfold onReady, bind, gets, ret, result_of.
  rewrite Hload. reflexivity.
Qed.

(** X7.  One load settles the file: on a disk that takes writes, with a
    codec that decodes the text of the loaded configuration back to it, a
    second [loadConfig] returns the same configuration and neither writes
    nor warns, whatever the file held before the first. *)
Theorem second_load_is_quiet (dk : Disk) (out : string) :
  writable dk = true ->
  let r := loadConfig dk in
  json_MarshalIndent (result_of r) = Some out ->
  json_Unmarshal out = Some (result_of r) ->
  loadConfig (state_of r) = (result_of r, state_of r, []).
Proof.
  intros Hw r Hout Hback.
  destruct (loadConfig_cases dk)
    as [(data & c & Hs & Hu & Hok & E) | (c' & pre & post & Hok & E)];
    subst r; rewrite E in *.
  - cbv [result_of state_of fst snd] in *.
    exact E.
  - clear E. rewrite saveConfig_run in *.
    destruct (json_MarshalIndent c') as [o | ] eqn:Hm.
    + rewrite Hw in *. cbv [result_of state_of fst snd] in *.
      rewrite Hm in Hout. inversion Hout; subst o.
      apply (loadConfig_quiet_on_valid _ out c');
        [ reflexivity | exact Hback | exact Hok ].
    + cbv [result_of state_of fst snd] in *.
      rewrite Hm in Hout. discriminate Hout.
Qed.

(** X8.  A save that fails does not undo the change: when the text cannot
    be produced or the disk refuses the write, [updateInterval] still
    stores the clamped interval in memory and sets the label, leaves the
    file as it was, and prints its warning once. *)
Theorem failed_save_keeps_interval_in_memory (st : App) (n : Z) :
  let c' := with_IntervalMinutes (clamp_interval n) (cfg st) in
  (json_MarshalIndent c' = None \/ writable (disk st) = false) ->
  let r := updateInterval n st in
  cfg (state_of r) = c'
  /\ disk (state_of r) = disk st
  /\ count_event is_save_warning (trace_of r) = 1%nat
  /\ exists pre, trace_of r = pre ++ [interval_label (clamp_interval n)].
Proof.
  intros c' Hfail r. subst r.
  pose proof (updateInterval_run n st) as H. cbv zeta in H. fold c' in H.
  rewrite saveConfig_run in H.
  destruct (json_MarshalIndent c') as [out | ] eqn:Hm.
  - destruct Hfail as [Hf | Hf]; [ discriminate Hf | ].
    rewrite Hf in H. rewrite H. cbv [state_of trace_of fst snd cfg disk].
    repeat split. exists [EvWriteFile out; EvPrintf WarnNotSaved]. reflexivity.
  - rewrite H. cbv [state_of trace_of fst snd cfg disk].
    repeat split. exists [EvPrintf WarnNotSaved]. reflexivity.
Qed.

End StoreProperties.

(** ** What the tray shows *)

Section Display.

Context {codec : JSONCodec}.

Lemma shown_seconds_monotone (d d' : Z) :
  d <= d' -> shown_seconds d <= shown_seconds d'.
Proof.
  unfold shown_seconds. intros. Z.to_euclidean_division_equations. lia.
Qed.

Lemma shown_seconds_minutes (n : Z) :
  minInterval <= n <= maxInterval ->
  shown_seconds (n * GoTime.Minute) = n * 60.
Proof.
  unfold shown_seconds. int64_unfold. intros.
  Z.to_euclidean_division_equations. lia.
Qed.

Lemma Until_Add (now last d : Z) :
  GoTime.Until now (GoTime.Add (GoTime.Unix0 last) d)
  = Int64.saturate (last + d - now).
Proof. reflexivity. Qed.

Lemma saturate_nonpos (z : Z) : Int64.saturate z <= 0 <-> z <= 0.
Proof. int64_unfold. split_ltb; lia. Qed.

Lemma saturate_le_bound (z b : Z) :
  0 <= b <= Int64.max_int -> z <= b -> Int64.saturate z <= b.
Proof. int64_unfold. split_ltb; lia. Qed.

(** The text of a whole number of minutes. *)
Lemma formatDuration_minutes (n : Z) :
  minInterval <= n <= maxInterval ->
  formatDuration (GoTime.Minutes n) = sprintf_hms (n / 60) (n mod 60) 0.
Proof.
  intros Hn. destruct (Minutes_exact n Hn) as [E Hr]. rewrite E.
  rewrite formatDuration_shown by (unfold Int64.in_range; lia).
  cbv zeta. rewrite (shown_seconds_minutes n Hn).
  f_equal.
  - Z.to_euclidean_division_equations. lia.
  - f_equal. Z.to_euclidean_division_equations. lia.
  - Z.to_euclidean_division_equations. lia.
Qed.

(** X9.  Whatever interval is asked for, the last thing [updateInterval]
    does is to set the interval entry to "Interval: {h}h {m}m 0s" where h
    and m are the hours and minutes of the interval it stored. *)
Theorem interval_label_shows_hours_and_minutes (n : Z) (st : App) :
  let r := updateInterval n st in
  let c := IntervalMinutes (cfg (state_of r)) in
  c = clamp_interval n
  /\ exists pre,
       trace_of r
       = pre ++ [EvSetTitle mIntervalLabel
                   ("Interval: " ++ sprintf_hms (c / 60) (c mod 60) 0)%string].
Proof.
  cbv zeta.
  pose proof (updateInterval_state n st) as (Hcfg & _). rewrite Hcfg.
  cbn [with_IntervalMinutes IntervalMinutes]. split; [ reflexivity | ].
  pose proof (updateInterval_run n st) as H. cbv zeta in H.
  destruct (saveConfig _ (disk st)) as [[e dk'] t].
  rewrite H. cbv [trace_of snd]. unfold interval_label.
  rewrite (formatDuration_minutes _ (clamp_interval_range n)).
  eexists. rewrite app_assoc. reflexivity.
Qed.

(** X10.  With nothing showing and the interval in [1,1440], the display
    half of a tick and the trigger test agree at one clock reading: when the
    delivery is due the tick shows the bare tooltip and "Countdown:", and
    otherwise it shows the text of the time left, last trigger plus
    interval minus now, which is positive and, unless the clock has gone
    back behind the last trigger, is at most the interval. *)
Theorem countdown_shown_until_due (st : App) (now : Z) :
  isMessageShowing st = false ->
  minInterval <= IntervalMinutes (cfg st) <= maxInterval ->
  let n := IntervalMinutes (cfg st) in
  let left := Int64.saturate (lastTriggeredUnix st + n * GoTime.Minute - now) in
  (due st now ->
   trace_of (tick_display now st)
   = [EvSetTooltip baseTooltip; EvSetTitle mCountdown "Countdown:"])
  /\ (~ due st now ->
      0 < left
      /\ trace_of (tick_display now st)
         = [EvSetTooltip
              (baseTooltip ++ " (" ++ formatDuration left ++ ")")%string;
            EvSetTitle mCountdown
              ("Countdown: " ++ formatDuration left)%string]
      /\ (lastTriggeredUnix st <= now -> shown_seconds left <= n * 60)).
Proof.
  intros Hshow Hn n left.
  destruct (Minutes_exact n Hn) as [Em Hr].
  assert (Hrun : trace_of (tick_display now st)
                 = if left <=? 0
                   then [EvSetTooltip baseTooltip;
                         EvSetTitle mCountdown "Countdown:"]
                   else [EvSetTooltip
                           (baseTooltip ++ " (" ++ formatDuration left ++ ")")%string;
                         EvSetTitle mCountdown
                           ("Countdown: " ++ formatDuration left)%string]).
  { unfold tick_display. rewrite bind_gets, Hshow, !bind_gets.
    fold n. rewrite Em, Until_Add. fold left.
    destruct (left <=? 0); reflexivity. }
  assert (Hsign : left <= 0 <-> due st now).
  { unfold left. rewrite saturate_nonpos. unfold due. fold n. lia. }
  split.
  - intros Hd. rewrite Hrun. apply Hsign in Hd.
    apply Z.leb_le in Hd. rewrite Hd. reflexivity.
  - intros Hnd.
    assert (Hnle : ~ left <= 0) by (intros Hle; apply Hnd, Hsign, Hle).
    assert (Hpos : 0 < left) by lia.
    split; [ exact Hpos | ]. split.
    + rewrite Hrun. destruct (Z.leb_spec left 0); [ lia | reflexivity ].
    + intros Hback.
      rewrite <- (shown_seconds_minutes n Hn).
      apply shown_seconds_monotone.
      unfold left. apply saturate_le_bound; [ | lia ].
      split; [ | apply Hr ]. unfold minInterval in Hn.
      unfold GoTime.Minute, GoTime.Second, GoTime.Nanosecond. lia.
Qed.

(** X11.  An increase followed by the decrease of the same size brings the
    interval back exactly when the increase did not hit the ceiling of
    1440; otherwise it ends at 1440 less the step.  A decrease followed by
    the increase brings it back exactly when the decrease did not hit the
    floor of 1; otherwise it ends at 1 plus the step. *)
Theorem opposite_clicks_undo_unless_clamped
  (st : App) (up down : Command) (k : Z) :
  command_delta up = Some k ->
  command_delta down = Some (- k) ->
  0 < k ->
  minInterval <= IntervalMinutes (cfg st) <= maxInterval ->
  let cur := IntervalMinutes (cfg st) in
  IntervalMinutes (cfg (state_of (run [Click up; Click down] st)))
  = (if cur + k <=? maxInterval then cur else maxInterval - k)
  /\ IntervalMinutes (cfg (state_of (run [Click down; Click up] st)))
     = (if minInterval <=? cur - k then cur else minInterval + k).
Proof.
  intros Hup Hdown Hk Hn cur.
  assert (Hstep : forall c d s,
            command_delta c = Some d ->
            minInterval <= IntervalMinutes (cfg s) <= maxInterval ->
            IntervalMinutes (cfg (state_of (handle (Click c) s)))
            = clamp_interval (IntervalMinutes (cfg s) + d)).
  { intros c d s Hc Hs. cbn [handle].
    rewrite (click_adjusts c d s Hc).
    rewrite (proj1 (updateInterval_state _ s)).
    cbn [with_IntervalMinutes IntervalMinutes]. unfold Int64.add.
    rewrite (wrap_id _ (menu_sum_in_range c d s Hc Hs)). reflexivity. }
  assert (Hrange : forall c d s,
            command_delta c = Some d ->
            minInterval <= IntervalMinutes (cfg s) <= maxInterval ->
            minInterval
            <= IntervalMinutes (cfg (state_of (handle (Click c) s)))
            <= maxInterval).
  { intros c d s Hc Hs. rewrite (Hstep c d s Hc Hs).
    apply clamp_interval_range. }
  assert (Hk60 : k <= 60).
  { destruct up; inversion Hup; subst; lia. }
  split.
  - rewrite run_two_state.
    rewrite (Hstep down (- k) _ Hdown (Hrange up k st Hup Hn)).
    rewrite (Hstep up k st Hup Hn). fold cur.
    unfold clamp_interval, minInterval, maxInterval in *.
    destruct (Z.leb_spec (cur + k) (24 * 60)); lia.
  - rewrite run_two_state.
    rewrite (Hstep up k _ Hup (Hrange down (- k) st Hdown Hn)).
    rewrite (Hstep down (- k) st Hdown Hn). fold cur.
    unfold clamp_interval, minInterval, maxInterval in *.
    destruct (Z.leb_spec 1 (cur - k)); lia.
Qed.

End Display.

(** ** The further theorems at concrete inputs *)

Lemma showing_blocks_every_loop_run_witness :
  let st := mkApp Sample.stretch 0 true (Sample.disk_of None) in
  let inputs :=
    ticks_at [300 * GoTime.Second; 301 * GoTime.Second]
    ++ [Click mMinus1m; Click mResetDefault]
    ++ ticks_at [86400 * GoTime.Second] in
  forallb is_loop_input inputs = true
  /\ isMessageShowing st = true
  /\ dispatches (trace_of (@run Sample.codec inputs st)) = 0%nat.
Proof.
  intros st inputs.
  assert (Hl : forallb is_loop_input inputs = true) by reflexivity.
  assert (Hs : isMessageShowing st = true) by reflexivity.
  refine (conj Hl (conj Hs _)).
  exact (proj1 (@showing_blocks_every_loop_run Sample.codec inputs st Hl Hs)).
Defined.

Lemma loop_run_starts_at_most_one_witness :
  let inputs :=
    ticks_at [299 * GoTime.Second; 300 * GoTime.Second]
    ++ [Click mMinus1m]
    ++ ticks_at [301 * GoTime.Second; 86400 * GoTime.Second] in
  forallb is_loop_input inputs = true
  /\ (dispatches (trace_of (@run Sample.codec inputs Sample.app0)) <= 1)%nat.
Proof.
  intros inputs.
  assert (Hl : forallb is_loop_input inputs = true) by reflexivity.
  refine (conj Hl _).
  exact (proj1 (@loop_run_starts_at_most_one Sample.codec inputs
                  Sample.app0 Hl)).
Defined.

Lemma next_reminder_one_interval_after_delivery_witness :
  let done := 310 * GoTime.Second in
  let clocks := [311 * GoTime.Second; 609 * GoTime.Second] in
  let t := 610 * GoTime.Second in
  let st1 := state_of (@run Sample.codec
                         (delivery true done "Stretch" "Stand up")
                         Sample.app0) in
  Int64.in_range done
  /\ minInterval <= IntervalMinutes (cfg Sample.app0) <= maxInterval
  /\ Forall (fun u => u < done + 5 * GoTime.Minute) clocks
  /\ done + 5 * GoTime.Minute <= t
  /\ dispatches (trace_of (@run Sample.codec (ticks_at clocks) st1)) = 0%nat
  /\ dispatches (trace_of (@run Sample.codec (ticks_at (clocks ++ [t])) st1))
     = 1%nat.
Proof.
  intros done clocks t st1.
  assert (Hd : Int64.in_range done) by (split; intro E; discriminate E).
  assert (Hn : minInterval <= IntervalMinutes (cfg Sample.app0) <= maxInterval)
    by (split; intro E; discriminate E).
  assert (He : Forall (fun u => u < done + 5 * GoTime.Minute) clocks)
    by (repeat constructor).
  assert (Hl : done + 5 * GoTime.Minute <= t) by (intro E; discriminate E).
  pose proof (@next_reminder_one_interval_after_delivery Sample.codec
                true done "Stretch" "Stand up" Sample.app0 clocks t
                Hd Hn He Hl) as T.
  cbv zeta in T. destruct T as (_ & T2 & T3).
  exact (conj Hd (conj Hn (conj He (conj Hl (conj T2 T3))))).
Defined.

Lemma tick_between_stores_starts_delivery_witness :
  let st := mkApp Sample.stretch 0 true (Sample.disk_of None) in
  let now := 310 * GoTime.Second in
  isMessageShowing st = true
  /\ minInterval <= IntervalMinutes (cfg st) <= maxInterval
  /\ due st now
  /\ Int64.in_range now
  /\ now < now + IntervalMinutes (cfg st) * GoTime.Minute
  /\ dispatches
       (trace_of (@run Sample.codec
                    [DeliveryCleared; Tick now now; DeliveryStamped now] st))
     = 1%nat
  /\ dispatches
       (trace_of (@run Sample.codec
                    [DeliveryCleared; DeliveryStamped now; Tick now now] st))
     = 0%nat.
Proof.
  intros st now.
  assert (Hs : isMessageShowing st = true) by reflexivity.
  assert (Hn : minInterval <= IntervalMinutes (cfg st) <= maxInterval)
    by (split; intro E; discriminate E).
  assert (Hd : due st now) by (intro E; discriminate E).
  assert (Hr : Int64.in_range now) by (split; intro E; discriminate E).
  assert (Hl : now < now + IntervalMinutes (cfg st) * GoTime.Minute)
    by reflexivity.
  pose proof (@tick_between_stores_starts_delivery Sample.codec st now now
                Hs Hn Hd Hr Hl) as T.
  cbv zeta in T. destruct T as (T1 & _ & _ & T4 & _).
  exact (conj Hs (conj Hn (conj Hd (conj Hr (conj Hl (conj T1 T4)))))).
Defined.

Lemma reachable_click_never_wraps_witness :
  let st := state_of (@run Sample.codec
                        [Click mPlus1h; Tick 0 0]
                        (result_of (@onReady Sample.codec 0
                                      (Sample.disk_of None)))) in
  command_delta mPlus30m = Some 30
  /\ IntervalMinutes (cfg (state_of (@click Sample.codec mPlus30m st)))
     = clamp_interval (IntervalMinutes (cfg st) + 30).
Proof.
  intros st.
  assert (Hc : command_delta mPlus30m = Some 30) by reflexivity.
  refine (conj Hc _).
  exact (proj1 (proj2 (@reachable_click_never_wraps Sample.codec
                         (Sample.disk_of None) 0 [Click mPlus1h; Tick 0 0]
                         mPlus30m 30 Hc))).
Defined.

Lemma saved_interval_is_loaded_back_witness :
  let st := mkApp (mkConfig 60 "Stretch" "Stand up") 0 false
              (Sample.disk_of None) in
  let st' := state_of (@updateInterval Sample.codec 5 st) in
  config_ok (cfg st)
  /\ writable (disk st) = true
  /\ @json_MarshalIndent Sample.codec (cfg st')
     = Some (Sample.text_of Sample.stretch)
  /\ @json_Unmarshal Sample.codec (Sample.text_of Sample.stretch)
     = Some (cfg st')
  /\ @loadConfig Sample.codec (disk st') = (cfg st', disk st', []).
Proof.
  intros st st'.
  assert (Hok : config_ok (cfg st)).
  { split; [ split; intro E; discriminate E | split; intro E; discriminate E ]. }
  assert (Hw : writable (disk st) = true) by reflexivity.
  assert (Hm : @json_MarshalIndent Sample.codec (cfg st')
               = Some (Sample.text_of Sample.stretch)) by reflexivity.
  assert (Hu : @json_Unmarshal Sample.codec (Sample.text_of Sample.stretch)
               = Some (cfg st')) by reflexivity.
  refine (conj Hok (conj Hw (conj Hm (conj Hu _)))).
  exact (proj1 (@saved_interval_is_loaded_back Sample.codec st 5
                  (Sample.text_of Sample.stretch) Hok Hw Hm Hu)).
Defined.

Lemma second_load_is_quiet_witness :
  let dk := Sample.disk_of (Some "interval = 5"%string) in
  let r := @loadConfig Sample.codec dk in
  writable dk = true
  /\ @json_MarshalIndent Sample.codec (result_of r)
     = Some (Sample.text_of defaultCfg)
  /\ @json_Unmarshal Sample.codec (Sample.text_of defaultCfg)
     = Some (result_of r)
  /\ @loadConfig Sample.codec (state_of r) = (result_of r, state_of r, []).
Proof.
  intros dk r.
  assert (Hw : writable dk = true) by reflexivity.
  assert (Hm : @json_MarshalIndent Sample.codec (result_of r)
               = Some (Sample.text_of defaultCfg)) by reflexivity.
  assert (Hu : @json_Unmarshal Sample.codec (Sample.text_of defaultCfg)
               = Some (result_of r)) by reflexivity.
  refine (conj Hw (conj Hm (conj Hu _))).
  exact (@second_load_is_quiet Sample.codec dk _ Hw Hm Hu).
Defined.

Lemma failed_save_keeps_interval_in_memory_witness :
  let st := mkApp Sample.stretch 0 false (mkDisk None false) in
  let r := @updateInterval Sample.codec 90 st in
  writable (disk st) = false
  /\ IntervalMinutes (cfg (state_of r)) = 90
  /\ disk (state_of r) = mkDisk None false
  /\ count_event is_save_warning (trace_of r) = 1%nat.
Proof.
  intros st r.
  assert (Hw : writable (disk st) = false) by reflexivity.
  pose proof (@failed_save_keeps_interval_in_memory Sample.codec st 90
                (or_intror Hw)) as T.
  cbv zeta in T. destruct T as (T1 & T2 & T3 & _).
  refine (conj Hw (conj _ (conj T2 T3))).
  exact (f_equal IntervalMinutes T1).
Defined.

Lemma countdown_shown_until_due_witness :
  let now := 200 * GoTime.Second in
  isMessageShowing Sample.app0 = false
  /\ minInterval <= IntervalMinutes (cfg Sample.app0) <= maxInterval
  /\ ~ due Sample.app0 now
  /\ due Sample.app0 (now + now)
  /\ lastTriggeredUnix Sample.app0 <= now
  /\ trace_of (tick_display now Sample.app0)
     = [EvSetTooltip
          (baseTooltip ++ " ("
           ++ formatDuration (Int64.saturate (0 + 5 * GoTime.Minute - now))
           ++ ")")%string;
        EvSetTitle mCountdown
          ("Countdown: "
           ++ formatDuration (Int64.saturate (0 + 5 * GoTime.Minute - now)))%string]
  /\ trace_of (tick_display (now + now) Sample.app0)
     = [EvSetTooltip baseTooltip; EvSetTitle mCountdown "Countdown:"]
  /\ shown_seconds (Int64.saturate (0 + 5 * GoTime.Minute - now)) <= 5 * 60.
Proof.
  intros now.
  assert (Hs : isMessageShowing Sample.app0 = false) by reflexivity.
  assert (Hn : minInterval <= IntervalMinutes (cfg Sample.app0) <= maxInterval)
    by (split; intro E; discriminate E).
  assert (Hnd : ~ due Sample.app0 now) by (intro E; apply E; reflexivity).
  assert (Hd : due Sample.app0 (now + now)) by (intro E; discriminate E).
  assert (Hb : lastTriggeredUnix Sample.app0 <= now)
    by (intro E; discriminate E).
  pose proof (countdown_shown_until_due Sample.app0 now Hs Hn) as T.
  pose proof (countdown_shown_until_due Sample.app0 (now + now) Hs Hn) as U.
  cbv zeta in T, U.
  destruct (proj2 T Hnd) as (_ & T2 & T3).
  refine (conj Hs (conj Hn (conj Hnd (conj Hd (conj Hb (conj T2 (conj _ _))))))).
  - exact (proj1 U Hd).
  - exact (T3 Hb).
Defined.

Lemma opposite_clicks_undo_unless_clamped_witness :
  let st := mkApp (mkConfig 1430 "Stretch" "Stand up") 0 false
              (Sample.disk_of None) in
  command_delta mPlus30m = Some 30
  /\ command_delta mMinus30m = Some (- (30))
  /\ 0 < 30
  /\ minInterval <= IntervalMinutes (cfg st) <= maxInterval
  /\ IntervalMinutes
       (cfg (state_of (@run Sample.codec [Click mPlus30m; Click mMinus30m] st)))
     = 1410
  /\ IntervalMinutes
       (cfg (state_of (@run Sample.codec [Click mMinus30m; Click mPlus30m] st)))
     = 1430.
Proof.
  intros st.
  assert (Hu : command_delta mPlus30m = Some 30) by reflexivity.
  assert (Hd : command_delta mMinus30m = Some (- (30))) by reflexivity.
  assert (Hk : 0 < 30) by reflexivity.
  assert (Hn : minInterval <= IntervalMinutes (cfg st) <= maxInterval)
    by (split; intro E; discriminate E).
  pose proof (@opposite_clicks_undo_unless_clamped Sample.codec st
                mPlus30m mMinus30m 30 Hu Hd Hk Hn) as T.
  cbv zeta in T. destruct T as (T1 & T2).
  exact (conj Hu (conj Hd (conj Hk (conj Hn (conj T1 T2))))).
Defined.

(** ** Single instance *)

Lemma enforceSingleInstance_cases (m : Process.MutexCall) (im : Z) :
  Process.enforceSingleInstance m im
  = if Process.create_failed m
    then (false, im, [Process.PrintfCreateMutex])
    else if Process.last_error m =? 183
         then (false, im, [Process.CloseHandle (Process.handle m)])
         else (true, Process.handle m, []).
Proof. reflexivity. Qed.

(** X12.  [main] runs the tray exactly when the mutex was created without
    an error and did not exist before, and then only once.  Whenever
    creation reports no error, the handle it returned, if it is not the
    null handle, is closed exactly once in the life of the process: at once
    when the mutex already existed, by [onExit] otherwise; when creation
    reports an error nothing is closed.  [instanceMutex] is zero at the
    end, so that a second [onExit] closes nothing. *)
Theorem main_single_instance (m : Process.MutexCall) :
  let r := Process.main m in
  let h := Process.handle m in
  (count_occ Bool.bool_dec (map Process.is_run (snd r)) true = 1%nat
   <-> Process.create_failed m = false /\ Process.last_error m <> 183)
  /\ (count_occ Bool.bool_dec (map Process.is_run (snd r)) true = 0%nat
      <-> Process.create_failed m = true \/ Process.last_error m = 183)
  /\ (Process.create_failed m = false -> h <> 0 ->
      count_occ Bool.bool_dec (map (Process.closes h) (snd r)) true = 1%nat)
  /\ (Process.create_failed m = true ->
      forall h', count_occ Bool.bool_dec
                   (map (Process.closes h') (snd r)) true = 0%nat)
  /\ fst r = 0
  /\ Process.onExit (fst r) = (0, []).
Proof.
  cbv zeta. unfold Process.main. rewrite enforceSingleInstance_cases.
  destruct (Process.create_failed m) eqn:Hf;
    [ | destruct (Z.eqb_spec (Process.last_error m) 183) as [He | He];
        [ | cbn [negb]; unfold Process.onExit;
            destruct (Z.eqb_spec (Process.handle m) 0) as [Hz | Hz];
            [ rewrite ?Hz | ] ] ];
    cbn; rewrite ?Z.eqb_refl; cbn;
    repeat split; intros;
    repeat match goal with
           | H : _ /\ _ |- _ => destruct H
           | H : _ \/ _ |- _ => destruct H
           end;
    try discriminate; try congruence; try tauto; auto.
Qed.

(** ** Resource files *)

Module ResourceFacts.

Import Resources.

Ltac conjs := repeat match goal with |- _ /\ _ => split end.

Section WithEnvironment.

Context {paths : FilePath}.
Variable env : Env.
Variable assets : Assets.

Lemma write_or_warn_facts (p data : string) (w : FsWarning) (fs : FileSystem) :
  let r := write_or_warn p data w fs in
  write_ok (fst r) = write_ok fs
  /\ mkdir_ok (fst r) = mkdir_ok fs
  /\ (forall q, q <> p -> read_file (fst r) q = read_file fs q)
  /\ (forall q d, In (WriteFile q d) (snd r) -> q = p /\ d = data)
  /\ (write_ok fs p = true -> read_file (fst r) p = ReadOk data).
Proof.
  cbv zeta. unfold write_or_warn.
  destruct (write_ok fs p) eqn:Hw; cbn [fst snd]; conjs;
    try reflexivity.
  - intros q Hq. unfold write_to. cbn [read_file].
    destruct (String.eqb_spec q p); [ contradiction | reflexivity ].
  - intros q d [E | []]. inversion E. split; reflexivity.
  - intros _. unfold write_to. cbn [read_file].
    rewrite String.eqb_refl. reflexivity.
  - intros q d [E | [E | []]]; inversion E. split; reflexivity.
  - intros E. discriminate E.
Qed.

Ltac finish_step :=
  conjs; auto; try reflexivity;
  try (intros ? ? []);
  try (intros E'; discriminate E');
  try (intros E'; inversion E'; contradiction);
  try (intros; contradiction).

Lemma refresh_ok (p data : string) (w : FsWarning) (fs : FileSystem) :
  step_ok p data fs (refresh p data w fs)
  /\ (write_ok fs p = true ->
      read_file (fst (refresh p data w fs)) p = ReadOk data).
Proof.
  unfold step_ok, refresh.
  pose proof (write_or_warn_facts p data w fs) as (F1 & F2 & F3 & F4 & F5).
  cbv zeta in F1, F2, F3, F4, F5.
  destruct (read_file fs p) as [disk | | part] eqn:Hr;
    [ destruct (String.eqb_spec disk data) as [E | E];
      [ subst disk | ]; cbn [negb fst snd] | | ];
    finish_step.
Qed.

Lemma copy_third_party_ok (p data : string) (fs : FileSystem) :
  step_ok p data fs (copy_third_party p data fs)
  /\ (write_ok fs p = true -> read_file fs p <> ReadFailed data ->
      read_file (fst (copy_third_party p data fs)) p = ReadOk data).
Proof.
  unfold step_ok, copy_third_party.
  pose proof (write_or_warn_facts p data (ErrThirdParty p) fs)
    as (F1 & F2 & F3 & F4 & F5).
  cbv zeta in F1, F2, F3, F4, F5.
  destruct (read_file fs p) as [disk | | part] eqn:Hr;
    [ destruct (String.eqb_spec disk data) as [E | E];
      [ subst disk | ]; cbn [negb fst snd]
    |
    | destruct (String.eqb_spec part data) as [E | E];
      [ subst part | ]; cbn [negb fst snd] ];
    finish_step.
Qed.

Lemma walk_ok (dir : string) (entries : list (string * Embedded))
  (fs : FileSystem) :
  let r := walk dir entries fs in
  let wt := walk_targets dir entries in
  write_ok (fst r) = write_ok fs
  /\ mkdir_ok (fst r) = mkdir_ok fs
  /\ (forall q, ~ In q (map fst wt) -> read_file (fst r) q = read_file fs q)
  /\ (forall q d, In (WriteFile q d) (snd r) -> In (q, d) wt)
  /\ ((forall p d, In (p, d) wt -> read_file fs p = ReadOk d) ->
      fst r = fs /\ forallb (fun e => negb (is_write e)) (snd r) = true).
Proof.
  revert fs. induction entries as [ | [path d] rest IH ]; intros fs.
  - cbn. conjs; auto; try (intros q d []).
  - cbn [walk walk_targets]. destruct d as [ | [content | ] | ].
    + apply IH.
    + cbv zeta.
      set (dest := Join dir (TrimPrefix path "THIRD_PARTY_LICENSES/")).
      pose proof (copy_third_party_ok dest content fs)
        as ((S1 & S2 & S3 & S4 & S5) & _).
      destruct (copy_third_party dest content fs) as [fs1 t1].
      cbn [fst snd] in S1, S2, S3, S4, S5.
      pose proof (IH fs1) as (I1 & I2 & I3 & I4 & I5). cbv zeta in I1, I2, I3, I4, I5.
      destruct (walk dir rest fs1) as [fs2 t2].
      cbn [fst snd map] in *. conjs.
      * congruence.
      * congruence.
      * intros q Hq. rewrite I3 by (intros H; apply Hq; right; exact H).
        apply S3. intros E. apply Hq. left. symmetry. exact E.
      * intros q d Hin. apply in_app_or in Hin. destruct Hin as [Hin | Hin].
        -- destruct (S4 q d Hin) as [-> ->]. left. reflexivity.
        -- right. apply I4. exact Hin.
      * intros Hall.
        assert (E1 : (fs1, t1) = (fs, []))
          by (apply S5, Hall; left; reflexivity).
        inversion E1; subst fs1 t1.
        destruct I5 as [E2 Hq];
          [ intros p d Hin; apply Hall; right; exact Hin | ].
        split; [ exact E2 | exact Hq ].
    + pose proof (IH fs) as (I1 & I2 & I3 & I4 & I5).
      cbv zeta in I1, I2, I3, I4, I5.
      destruct (walk dir rest fs) as [fs' t]. cbn [fst snd] in *.
      conjs; auto;
        try (intros q d [E | Hin]; [ discriminate E | apply I4; exact Hin ]);
        try (intros Hall; destruct (I5 Hall) as [E Hq]; split; assumption).
    + cbn. conjs; auto; try (intros q d [E | []]; discriminate E).
Qed.

Lemma walk_installs (dir : string) (entries : list (string * Embedded))
  (fs : FileSystem) :
  let wt := walk_targets dir entries in
  NoDup (map fst wt) ->
  (forall p, In p (map fst wt) -> write_ok fs p = true) ->
  (forall p d, In (p, d) wt -> read_file fs p <> ReadFailed d) ->
  forall p d, In (p, d) wt ->
              read_file (fst (walk dir entries fs)) p = ReadOk d.
Proof.
  revert fs. induction entries as [ | [path d] rest IH ]; intros fs.
  - intros wt _ _ _ p d [].
  - cbn [walk walk_targets]. destruct d as [ | [content | ] | ].
    + apply IH.
    + cbv zeta.
      set (dest := Join dir (TrimPrefix path "THIRD_PARTY_LICENSES/")).
      cbn [map fst]. intros Hnd Hw Hrf p d Hin.
      inversion Hnd as [ | ? ? Hnotin Hnd' ]; subst.
      pose proof (copy_third_party_ok dest content fs)
        as ((S1 & S2 & S3 & S4 & S5) & S6).
      destruct (copy_third_party dest content fs) as [fs1 t1].
      cbn [fst snd] in S1, S2, S3, S4, S5, S6.
      pose proof (walk_ok dir rest fs1) as (_ & _ & W3 & _). cbv zeta in W3.
      pose proof (IH fs1) as IH1. cbv zeta in IH1.
      destruct (walk dir rest fs1) as [fs2 t2]. cbn [fst snd] in *.
      destruct Hin as [E | Hin].
      * inversion E; subst p d. rewrite (W3 dest Hnotin).
        apply S6; [ apply Hw; left; reflexivity
                  | apply Hrf; left; reflexivity ].
      * apply IH1; [ exact Hnd' | | | exact Hin ].
        -- intros q Hq. rewrite S1. apply Hw. right. exact Hq.
        -- intros q c Hq. rewrite S3.
           ++ apply Hrf. right. exact Hq.
           ++ intros Eq. apply Hnotin. rewrite <- Eq.
              apply (in_map fst _ _ Hq).
    + intros Hnd Hw Hrf p d Hin.
      pose proof (IH fs Hnd Hw Hrf p d Hin) as IH1.
      destruct (walk dir rest fs) as [fs' t]. exact IH1.
    + intros _ _ _ p d [].
Qed.

(** The path [settingsPath] returns does not depend on the disk. *)
Lemma settingsPath_path (fs fs' : FileSystem) :
  fst (settingsPath env fs) = fst (settingsPath env fs').
Proof. reflexivity. Qed.

Lemma settingsPath_no_write (fs : FileSystem) :
  forallb (fun e => negb (is_write e)) (snd (settingsPath env fs)) = true
  /\ forall q d, ~ In (WriteFile q d) (snd (settingsPath env fs)).
Proof.
  unfold settingsPath. cbn [snd].
  destruct (mkdir_ok fs _); split; try reflexivity;
    intros q d Hin; cbn in Hin;
    repeat (destruct Hin as [Hin | Hin]; try discriminate Hin); exact Hin.
Qed.

(** [ensureResourceFiles] as its three steps. *)
Lemma ensure_steps (fs : FileSystem) :
  let dir := resource_dir env fs in
  let license := Join dir "LICENSE.txt" in
  let icon := Join dir "better-posture.ico" in
  let third := Join dir "THIRD_PARTY_LICENSES" in
  let r1 := refresh license (licenseData assets) (ErrLicense license) fs in
  let r2 := refresh icon (iconData assets) (ErrIcon icon) (fst r1) in
  let r3 := walk third (thirdPartyLicenses assets) (fst r2) in
  ensureResourceFiles env assets fs
  = (fst r3,
     snd (settingsPath env fs) ++ snd r1
     ++ snd (settingsPath env (fst r1)) ++ snd r2
     ++ snd (settingsPath env (fst r2))
     ++ (MkdirAll third
           :: (if mkdir_ok (fst r2) third then []
               else [Printf (WarnThirdPartyDir third)]))
     ++ snd r3).
Proof.
  unfold ensureResourceFiles, licenseFilePath, iconPath, resource_dir,
    settingsPath.
  cbv beta iota zeta. cbn [fst snd].
  match goal with
  | |- context [ refresh ?a ?b ?c fs ] =>
      destruct (refresh a b c fs) as [fs1 t1]
  end.
  cbn [fst snd].
  match goal with
  | |- context [ refresh ?a ?b ?c fs1 ] =>
      destruct (refresh a b c fs1) as [fs2 t2]
  end.
  cbn [fst snd].
  match goal with
  | |- context [ walk ?a ?b fs2 ] => destruct (walk a b fs2) as [fs3 t3]
  end.
  reflexivity.
Qed.

Lemma mkdir_events_no_write (dir : string) (b : bool) (w : FsWarning) :
  forallb (fun e => negb (is_write e))
    (MkdirAll dir :: (if b then [] else [Printf w])) = true
  /\ forall q d,
       ~ In (WriteFile q d) (MkdirAll dir :: (if b then [] else [Printf w])).
Proof.
  destruct b; split; try reflexivity; intros q d Hin; cbn in Hin;
    repeat (destruct Hin as [Hin | Hin]; try discriminate Hin); exact Hin.
Qed.

Lemma no_write_forallb (t : list FsEvent) :
  (forall q d, ~ In (WriteFile q d) t) ->
  forallb (fun e => negb (is_write e)) t = true.
Proof.
  induction t as [ | e t IH ]; intros H; [ reflexivity | ].
  cbn [forallb]. rewrite IH by (intros q d Hin; apply (H q d); right; exact Hin).
  destruct e; try reflexivity. exfalso. apply (H path data). left. reflexivity.
Qed.

Lemma write_or_warn_no_mkdir (p data : string) (w : FsWarning)
  (fs : FileSystem) (dir : string) :
  ~ In (MkdirAll dir) (snd (write_or_warn p data w fs)).
Proof.
  unfold write_or_warn. destruct (write_ok fs p); cbn [snd]; intros H;
    repeat (destruct H as [H | H]; [ discriminate H | ]); exact H.
Qed.

Lemma refresh_no_mkdir (p data : string) (w : FsWarning)
  (fs : FileSystem) (dir : string) :
  ~ In (MkdirAll dir) (snd (refresh p data w fs)).
Proof.
  unfold refresh.
  destruct (match read_file fs p with
            | ReadOk diskData => negb (String.eqb diskData data)
            | _ => true
            end);
    [ apply write_or_warn_no_mkdir | intros [] ].
Qed.

Lemma copy_third_party_no_mkdir (p data : string) (fs : FileSystem)
  (dir : string) :
  ~ In (MkdirAll dir) (snd (copy_third_party p data fs)).
Proof.
  unfold copy_third_party.
  destruct (match read_file fs p with
            | ReadNotExist => true
            | ReadOk c | ReadFailed c => negb (String.eqb c data)
            end);
    [ apply write_or_warn_no_mkdir | intros [] ].
Qed.

Lemma walk_no_mkdir (third : string) (entries : list (string * Embedded))
  (fs : FileSystem) (dir : string) :
  ~ In (MkdirAll dir) (snd (walk third entries fs)).
Proof.
  revert fs. induction entries as [ | [path e] rest IH ]; intros fs.
  - intros [].
  - cbn [walk]. destruct e as [ | [content | ] | ].
    + apply IH.
    + cbv zeta.
      set (dest := Join third (TrimPrefix path "THIRD_PARTY_LICENSES/")).
      pose proof (copy_third_party_no_mkdir dest content fs dir) as Hc.
      destruct (copy_third_party dest content fs) as [fs1 t1].
      pose proof (IH fs1) as IH1.
      destruct (walk third rest fs1) as [fs2 t2]. cbn [snd] in *.
      intros H. apply in_app_or in H. destruct H as [H | H];
        [ exact (Hc H) | exact (IH1 H) ].
    + pose proof (IH fs) as IH1.
      destruct (walk third rest fs) as [fs' t]. cbn [snd] in *.
      intros [H | H]; [ discriminate H | exact (IH1 H) ].
    + cbn [snd]. intros [H | []]. discriminate H.
Qed.

Lemma settingsPath_mkdir (fs : FileSystem) :
  In (MkdirAll (config_dir env)) (snd (settingsPath env fs))
  /\ forall dir, In (MkdirAll dir) (snd (settingsPath env fs)) ->
                 dir = config_dir env.
Proof.
  unfold settingsPath, config_dir. cbn [snd]. split.
  - left. reflexivity.
  - intros dir [H | H].
    + inversion H. reflexivity.
    + destruct (mkdir_ok fs _); [ destruct H | ].
      destruct H as [H | []]. discriminate H.
Qed.

(** X13.  [ensureResourceFiles] asks the operating system for nothing but
    its own: every write it asks for is a write of the license, the icon
    or a third-party notice, with its embedded content, to its place under
    the settings directory, and the only directories it asks to create are
    the settings directory and the third-party directory, which it asks
    for on every run. *)
Theorem ensure_asks_only_for_its_own (fs : FileSystem) :
  let r := ensureResourceFiles env assets fs in
  let third := Join (resource_dir env fs) "THIRD_PARTY_LICENSES" in
  (forall q d, In (WriteFile q d) (snd r) -> In (q, d) (targets env assets fs))
  /\ (forall dir, In (MkdirAll dir) (snd r) ->
                  dir = config_dir env \/ dir = third)
  /\ In (MkdirAll (config_dir env)) (snd r)
  /\ In (MkdirAll third) (snd r).
Proof.
  cbv zeta. pose proof (ensure_steps fs) as E. cbv zeta in E. rewrite E.
  clear E. unfold targets.
  set (dir := resource_dir env fs).
  set (license := Join dir "LICENSE.txt").
  set (icon := Join dir "better-posture.ico").
  set (third := Join dir "THIRD_PARTY_LICENSES").
  pose proof (proj1 (refresh_ok license (licenseData assets)
                       (ErrLicense license) fs))
    as (_ & _ & _ & A4 & _).
  pose proof (refresh_no_mkdir license (licenseData assets)
                (ErrLicense license) fs) as A6.
  set (r1 := refresh license (licenseData assets) (ErrLicense license) fs) in *.
  pose proof (proj1 (refresh_ok icon (iconData assets) (ErrIcon icon) (fst r1)))
    as (_ & _ & _ & B4 & _).
  pose proof (refresh_no_mkdir icon (iconData assets) (ErrIcon icon) (fst r1))
    as B6.
  set (r2 := refresh icon (iconData assets) (ErrIcon icon) (fst r1)) in *.
  pose proof (walk_ok third (thirdPartyLicenses assets) (fst r2))
    as (_ & _ & _ & C4 & _).
  cbv zeta in C4.
  pose proof (walk_no_mkdir third (thirdPartyLicenses assets) (fst r2)) as C6.
  set (r3 := walk third (thirdPartyLicenses assets) (fst r2)) in *.
  cbn [fst snd map]. conjs.
  - intros q d Hin.
    repeat (apply in_app_or in Hin; destruct Hin as [Hin | Hin]).
    + exfalso. exact (proj2 (settingsPath_no_write fs) q d Hin).
    + destruct (A4 q d Hin) as [-> ->]. left. reflexivity.
    + exfalso. exact (proj2 (settingsPath_no_write (fst r1)) q d Hin).
    + destruct (B4 q d Hin) as [-> ->]. right. left. reflexivity.
    + exfalso. exact (proj2 (settingsPath_no_write (fst r2)) q d Hin).
    + exfalso. exact (proj2 (mkdir_events_no_write _ _ _) q d Hin).
    + right. right. apply C4. exact Hin.
  - intros d Hin.
    repeat (apply in_app_or in Hin; destruct Hin as [Hin | Hin]).
    + left. exact (proj2 (settingsPath_mkdir fs) d Hin).
    + exfalso. exact (A6 d Hin).
    + left. exact (proj2 (settingsPath_mkdir (fst r1)) d Hin).
    + exfalso. exact (B6 d Hin).
    + left. exact (proj2 (settingsPath_mkdir (fst r2)) d Hin).
    + destruct Hin as [Hin | Hin].
      * inversion Hin. right. reflexivity.
      * destruct (mkdir_ok (fst r2) third); [ destruct Hin | ].
        destruct Hin as [Hin | []]. discriminate Hin.
    + exfalso. exact (C6 d Hin).
  - apply in_or_app. left. exact (proj1 (settingsPath_mkdir fs)).
  - do 5 (apply in_or_app; right). apply in_or_app. left. left. reflexivity.
Qed.

(** When every resource file already reads as its embedded content,
    nothing is written and the disk is handed back as it was. *)
Lemma ensure_settled (fs : FileSystem) :
  (forall p d, In (p, d) (targets env assets fs) -> read_file fs p = ReadOk d) ->
  fst (ensureResourceFiles env assets fs) = fs
  /\ forallb (fun e => negb (is_write e))
       (snd (ensureResourceFiles env assets fs)) = true.
Proof.
  unfold targets. intros Hall.
  pose proof (ensure_steps fs) as E. cbv zeta in E. rewrite E. clear E.
  set (dir := resource_dir env fs) in *.
  set (license := Join dir "LICENSE.txt") in *.
  set (icon := Join dir "better-posture.ico") in *.
  set (third := Join dir "THIRD_PARTY_LICENSES") in *.
  pose proof (refresh_ok license (licenseData assets) (ErrLicense license) fs)
    as ((_ & _ & _ & _ & A5) & _).
  rewrite (A5 (Hall _ _ (or_introl eq_refl))). cbn [fst snd].
  pose proof (refresh_ok icon (iconData assets) (ErrIcon icon) fs)
    as ((_ & _ & _ & _ & B5) & _).
  rewrite (B5 (Hall _ _ (or_intror (or_introl eq_refl)))). cbn [fst snd].
  pose proof (walk_ok third (thirdPartyLicenses assets) fs)
    as (_ & _ & _ & _ & C5).
  cbv zeta in C5.
  destruct C5 as [C5a C5b];
    [ intros p d Hin; apply Hall; right; right; exact Hin | ].
  split; [ exact C5a | ].
  rewrite !forallb_app, C5b.
  rewrite (proj1 (settingsPath_no_write fs)).
  rewrite (proj1 (mkdir_events_no_write _ _ _)). reflexivity.
Qed.

Lemma ensure_installed (fs : FileSystem) :
  let ts := targets env assets fs in
  NoDup (map fst ts) ->
  (forall p, In p (map fst ts) -> write_ok fs p = true) ->
  (forall p d,
      In (p, d) (walk_targets (Join (resource_dir env fs) "THIRD_PARTY_LICENSES")
                   (thirdPartyLicenses assets)) ->
      read_file fs p <> ReadFailed d) ->
  forall p d, In (p, d) ts ->
              read_file (fst (ensureResourceFiles env assets fs)) p = ReadOk d.
Proof.
  cbv zeta. unfold targets.
  set (dir := resource_dir env fs).
  set (license := Join dir "LICENSE.txt").
  set (icon := Join dir "better-posture.ico").
  set (third := Join dir "THIRD_PARTY_LICENSES").
  set (wt := walk_targets third (thirdPartyLicenses assets)).
  cbn [map fst]. intros Hnd Hw Hrf p d Hin.
  pose proof (ensure_steps fs) as E. cbv zeta in E. rewrite E. clear E.
  fold dir. fold license. fold icon. fold third.
  pose proof (refresh_ok license (licenseData assets) (ErrLicense license) fs)
    as ((A1 & A2 & A3 & A4 & _) & A6).
  set (r1 := refresh license (licenseData assets) (ErrLicense license) fs) in *.
  pose proof (refresh_ok icon (iconData assets) (ErrIcon icon) (fst r1))
    as ((B1 & B2 & B3 & B4 & _) & B6).
  set (r2 := refresh icon (iconData assets) (ErrIcon icon) (fst r1)) in *.
  pose proof (walk_ok third (thirdPartyLicenses assets) (fst r2))
    as (_ & _ & C3 & _).
  cbv zeta in C3. fold wt in C3.
  cbn [fst].
  inversion Hnd as [ | ? ? Hl Hnd1 ]; subst.
  inversion Hnd1 as [ | ? ? Hi Hnd2 ]; subst.
  destruct Hin as [Ep | [Ep | Hin]].
  - inversion Ep; subst p d.
    rewrite C3 by (intros H; apply Hl; right; exact H).
    rewrite B3 by (intros H; apply Hl; left; symmetry; exact H).
    apply A6, Hw. left. reflexivity.
  - inversion Ep; subst p d.
    rewrite C3 by exact Hi.
    apply B6. rewrite A1. apply Hw. right. left. reflexivity.
  - apply (walk_installs third (thirdPartyLicenses assets) (fst r2));
      [ exact Hnd2 | | | exact Hin ].
    + intros q Hq. rewrite B1, A1. apply Hw. right. right. exact Hq.
    + intros q c Hq.
      assert (Hq' : In q (map fst wt)) by (apply (in_map fst _ _ Hq)).
      rewrite B3 by (intros H; apply Hi; rewrite <- H; exact Hq').
      rewrite A3 by (intros H; apply Hl; right; rewrite <- H; exact Hq').
      apply Hrf. exact Hq.
Qed.

(** X14.  When no two resource files share a path, the disk takes the
    writes, and no third-party file is in the one state the walk leaves
    alone (unreadable, with the bytes returned beside the error equal to
    the embedded ones), then after [ensureResourceFiles] the license, the
    icon and every third-party notice the walk reached read as their
    embedded content, and a second run on that disk asks for no write and
    changes nothing. *)
Theorem ensure_installs_then_settles (fs : FileSystem) :
  let ts := targets env assets fs in
  NoDup (map fst ts) ->
  (forall p, In p (map fst ts) -> write_ok fs p = true) ->
  (forall p d,
      In (p, d) (walk_targets (Join (resource_dir env fs) "THIRD_PARTY_LICENSES")
                   (thirdPartyLicenses assets)) ->
      read_file fs p <> ReadFailed d) ->
  let fs1 := fst (ensureResourceFiles env assets fs) in
  (forall p d, In (p, d) ts -> read_file fs1 p = ReadOk d)
  /\ fst (ensureResourceFiles env assets fs1) = fs1
  /\ forallb (fun e => negb (is_write e))
       (snd (ensureResourceFiles env assets fs1)) = true.
Proof.
  intros ts Hnd Hw Hrf fs1.
  assert (Hall : forall p d, In (p, d) ts -> read_file fs1 p = ReadOk d)
    by (intros p d Hin; exact (ensure_installed fs Hnd Hw Hrf p d Hin)).
  split; [ exact Hall | ].
  apply ensure_settled. exact Hall.
Qed.

Lemma walk_leaves_good_file (dir : string)
  (entries : list (string * Embedded)) (fs : FileSystem) (p d : string) :
  NoDup (map fst (walk_targets dir entries)) ->
  In (p, d) (walk_targets dir entries) ->
  read_file fs p = ReadOk d ->
  (forall d', ~ In (WriteFile p d') (snd (walk dir entries fs)))
  /\ read_file (fst (walk dir entries fs)) p = ReadOk d.
Proof.
  revert fs. induction entries as [ | [path e] rest IH ]; intros fs.
  - intros _ [].
  - cbn [walk walk_targets]. destruct e as [ | [content | ] | ].
    + apply IH.
    + cbv zeta.
      set (dest := Join dir (TrimPrefix path "THIRD_PARTY_LICENSES/")).
      cbn [map fst]. intros Hnd Hin Hr.
      inversion Hnd as [ | ? ? Hnotin Hnd' ]; subst.
      pose proof (copy_third_party_ok dest content fs)
        as ((S1 & S2 & S3 & S4 & S5) & _).
      destruct (copy_third_party dest content fs) as [fs1 t1].
      cbn [fst snd] in S1, S2, S3, S4, S5.
      pose proof (walk_ok dir rest fs1) as (_ & _ & W3 & W4 & _).
      cbv zeta in W3, W4.
      pose proof (IH fs1 Hnd') as IH1.
      destruct (walk dir rest fs1) as [fs2 t2]. cbn [fst snd] in *.
      destruct Hin as [E | Hin].
      * inversion E; subst p d.
        assert (E1 : (fs1, t1) = (fs, [])) by (apply S5, Hr).
        inversion E1; subst fs1 t1. split.
        -- intros d' Hw. cbn [app] in Hw.
           apply Hnotin. apply (in_map fst _ _ (W4 _ _ Hw)).
        -- rewrite (W3 dest Hnotin). exact Hr.
      * assert (Hne : p <> dest).
        { intros Ep. apply Hnotin. rewrite <- Ep.
          apply (in_map fst _ _ Hin). }
        assert (Hr1 : read_file fs1 p = ReadOk d)
          by (rewrite S3 by exact Hne; exact Hr).
        destruct (IH1 Hin Hr1) as [I1 I2]. split; [ | exact I2 ].
        intros d' Hw. apply in_app_or in Hw. destruct Hw as [Hw | Hw].
        -- destruct (S4 _ _ Hw) as [Ep _]. contradiction.
        -- exact (I1 d' Hw).
    + intros Hnd Hin Hr.
      pose proof (IH fs Hnd Hin Hr) as IH1.
      destruct (walk dir rest fs) as [fs' t]. cbn [fst snd] in *.
      destruct IH1 as [I1 I2]. split; [ | exact I2 ].
      intros d' [E | Hw]; [ discriminate E | exact (I1 d' Hw) ].
    + intros _ [].
Qed.

(** X15.  When no two resource files share a path, a resource file that
    already reads as its embedded content is not written again, whatever
    the state of the others, and reads the same afterwards. *)
Theorem ensure_leaves_good_file_alone (fs : FileSystem) (p d : string) :
  NoDup (map fst (targets env assets fs)) ->
  In (p, d) (targets env assets fs) ->
  read_file fs p = ReadOk d ->
  (forall d', ~ In (WriteFile p d')
                  (snd (ensureResourceFiles env assets fs)))
  /\ read_file (fst (ensureResourceFiles env assets fs)) p = ReadOk d.
Proof.
  unfold targets.
  set (dir := resource_dir env fs).
  set (license := Join dir "LICENSE.txt").
  set (icon := Join dir "better-posture.ico").
  set (third := Join dir "THIRD_PARTY_LICENSES").
  set (wt := walk_targets third (thirdPartyLicenses assets)).
  cbn [map fst]. intros Hnd Hin Hr.
  pose proof (ensure_steps fs) as E. cbv zeta in E. rewrite E. clear E.
  fold dir. fold license. fold icon. fold third.
  pose proof (refresh_ok license (licenseData assets) (ErrLicense license) fs)
    as ((A1 & A2 & A3 & A4 & A5) & _).
  set (r1 := refresh license (licenseData assets) (ErrLicense license) fs) in *.
  pose proof (refresh_ok icon (iconData assets) (ErrIcon icon) (fst r1))
    as ((B1 & B2 & B3 & B4 & B5) & _).
  set (r2 := refresh icon (iconData assets) (ErrIcon icon) (fst r1)) in *.
  pose proof (walk_ok third (thirdPartyLicenses assets) (fst r2))
    as (_ & _ & C3 & C4 & _).
  cbv zeta in C3, C4. fold wt in C3, C4.
  pose proof (walk_leaves_good_file third (thirdPartyLicenses assets)
                (fst r2) p d) as C6. fold wt in C6.
  set (r3 := walk third (thirdPartyLicenses assets) (fst r2)) in *.
  cbn [fst snd].
  inversion Hnd as [ | ? ? Hl Hnd1 ]; subst.
  inversion Hnd1 as [ | ? ? Hi Hnd2 ]; subst.
  assert (Hsplit : forall d',
            In (WriteFile p d')
              (snd (settingsPath env fs) ++ snd r1
               ++ snd (settingsPath env (fst r1)) ++ snd r2
               ++ snd (settingsPath env (fst r2))
               ++ (MkdirAll third
                     :: (if mkdir_ok (fst r2) third then []
                         else [Printf (WarnThirdPartyDir third)]))
               ++ snd r3) ->
            In (WriteFile p d') (snd r1) \/ In (WriteFile p d') (snd r2)
            \/ In (WriteFile p d') (snd r3)).
  { intros d' Hw.
    repeat (apply in_app_or in Hw; destruct Hw as [Hw | Hw]).
    - exfalso. exact (proj2 (settingsPath_no_write fs) _ _ Hw).
    - left. exact Hw.
    - exfalso. exact (proj2 (settingsPath_no_write (fst r1)) _ _ Hw).
    - right. left. exact Hw.
    - exfalso. exact (proj2 (settingsPath_no_write (fst r2)) _ _ Hw).
    - exfalso. exact (proj2 (mkdir_events_no_write _ _ _) _ _ Hw).
    - right. right. exact Hw. }
  destruct Hin as [Ep | [Ep | Hin]].
  - (* the license *)
    inversion Ep; subst p d.
    assert (Hni : license <> icon)
      by (intros H; apply Hl; left; symmetry; exact H).
    assert (Hnw : ~ In license (map fst wt))
      by (intros H; apply Hl; right; exact H).
    assert (E1 : r1 = (fs, [])) by (apply A5; exact Hr).
    split.
    + intros d' Hw. destruct (Hsplit d' Hw) as [H | [H | H]].
      * rewrite E1 in H. exact H.
      * destruct (B4 _ _ H) as [Ei _]. contradiction.
      * apply Hnw. apply (in_map fst _ _ (C4 _ _ H)).
    + rewrite (C3 license Hnw), (B3 license Hni), E1. exact Hr.
  - (* the icon *)
    inversion Ep; subst p d.
    assert (Hnl : icon <> license)
      by (intros H; apply Hl; left; exact H).
    assert (Hr1 : read_file (fst r1) icon = ReadOk (iconData assets))
      by (rewrite (A3 icon Hnl); exact Hr).
    assert (E2 : r2 = (fst r1, [])) by (apply B5; exact Hr1).
    split.
    + intros d' Hw. destruct (Hsplit d' Hw) as [H | [H | H]].
      * destruct (A4 _ _ H) as [El _]. contradiction.
      * rewrite E2 in H. exact H.
      * apply Hi. apply (in_map fst _ _ (C4 _ _ H)).
    + rewrite (C3 icon Hi), E2. exact Hr1.
  - (* a third-party notice *)
    assert (Hp : In p (map fst wt)) by (apply (in_map fst _ _ Hin)).
    assert (Hnl : p <> license)
      by (intros H; subst p; apply Hl; right; exact Hp).
    assert (Hni : p <> icon) by (intros H; subst p; exact (Hi Hp)).
    assert (Hr2 : read_file (fst r2) p = ReadOk d)
      by (rewrite (B3 p Hni), (A3 p Hnl); exact Hr).
    destruct (C6 Hnd2 Hin Hr2) as [C6a C6b].
    split; [ | exact C6b ].
    intros d' Hw. destruct (Hsplit d' Hw) as [H | [H | H]].
    + destruct (A4 _ _ H) as [El _]. contradiction.
    + destruct (B4 _ _ H) as [Ei _]. contradiction.
    + exact (C6a d' H).
Qed.

End WithEnvironment.

End ResourceFacts.

(** ** The text of a duration read back *)

Lemma split_at_digits (c : ascii) (d : Decimal.uint) (rest : string) :
  is_digit c = false ->
  split_at c (NilEmpty.string_of_uint d ++ String c rest)%string
  = Some (NilEmpty.string_of_uint d, rest).
Proof.
  intros Hc. induction d as [ | d IH | d IH | d IH | d IH | d IH
                               | d IH | d IH | d IH | d IH | d IH ];
    cbn [NilEmpty.string_of_uint String.append split_at];
    try (rewrite IH;
         match goal with
         | |- context [ Ascii.eqb ?k c ] =>
             destruct (Ascii.eqb_spec k c) as [E | E];
             [ subst c; discriminate Hc | reflexivity ]
         end).
  rewrite Ascii.eqb_refl. reflexivity.
Qed.

Lemma split_at_itoa (c : ascii) (z : Z) (rest : string) :
  0 <= z -> is_digit c = false ->
  split_at c (itoa z ++ String c rest)%string = Some (itoa z, rest).
Proof.
  intros Hz Hc. unfold itoa.
  destruct z as [ | p | p ]; [ | | lia ]; cbn [Z.to_int NilZero.string_of_int].
  - exact (split_at_digits c (Decimal.D0 Decimal.Nil) rest Hc).
  - unfold NilZero.string_of_uint.
    destruct (Pos.to_uint p) eqn:E;
      try exact (split_at_digits c _ rest Hc).
    exact (split_at_digits c (Decimal.D0 Decimal.Nil) rest Hc).
Qed.

Lemma atoi_itoa (z : Z) : atoi (itoa z) = Some z.
Proof.
  unfold atoi, itoa.
  rewrite NilZero.isi.
  - cbn [option_map]. rewrite DecimalZ.of_to. reflexivity.
  - destruct z; cbn [Z.to_int]; try discriminate.
    intros E. inversion E as [E']. revert E'. apply DecimalPos.Unsigned.to_uint_nonnil.
  - destruct z; cbn [Z.to_int]; try discriminate.
    intros E. inversion E as [E']. revert E'. apply DecimalPos.Unsigned.to_uint_nonnil.
Qed.

Lemma read_unit_itoa (c : ascii) (z : Z) (rest : string) :
  0 <= z -> is_digit c = false ->
  read_unit c (itoa z ++ String c rest)%string = Some (z, rest).
Proof.
  intros Hz Hc. unfold read_unit.
  rewrite (split_at_itoa c z rest Hz Hc), atoi_itoa. reflexivity.
Qed.

Lemma parse_sprintf_hms (h m s : Z) :
  0 <= h -> 0 <= m -> 0 <= s ->
  parse_hms (sprintf_hms h m s) = Some (h, m, s).
Proof.
  intros Hh Hm Hs. unfold parse_hms, sprintf_hms.
  change (itoa h ++ "h " ++ itoa m ++ "m " ++ itoa s ++ "s")%string
    with (itoa h ++ String "h"
            (String " " (itoa m ++ String "m"
                           (String " " (itoa s ++ String "s" "")))))%string.
  rewrite (read_unit_itoa "h" h _ Hh eq_refl). cbn [skip_space Ascii.eqb Bool.eqb].
  rewrite (read_unit_itoa "m" m _ Hm eq_refl). cbn [skip_space Ascii.eqb Bool.eqb].
  rewrite (read_unit_itoa "s" s _ Hs eq_refl). reflexivity.
Qed.

(** X18.  The text of a duration can be read back: for every duration the
    numerals before "h", "m" and "s" in [formatDuration d] are hours,
    minutes below 60 and seconds below 60 that add up to the whole seconds
    shown; so two durations have the same text exactly when they show the
    same number of seconds, and a later duration never shows fewer. *)
Theorem formatDuration_reads_back (d d' : Z) :
  Int64.in_range d -> Int64.in_range d' ->
  let t := shown_seconds d in
  parse_hms (formatDuration d) = Some (t / 3600, (t / 60) mod 60, t mod 60)
  /\ (formatDuration d = formatDuration d'
      <-> shown_seconds d = shown_seconds d')
  /\ (d <= d' -> shown_seconds d <= shown_seconds d').
Proof.
  intros Hd Hd' t.
  assert (Hparse : forall x, Int64.in_range x ->
            parse_hms (formatDuration x)
            = Some (shown_seconds x / 3600, (shown_seconds x / 60) mod 60,
                    shown_seconds x mod 60)).
  { intros x Hx. rewrite (formatDuration_shown x Hx). cbv zeta.
    assert (0 <= shown_seconds x) by (unfold shown_seconds; lia).
    apply parse_sprintf_hms; Z.to_euclidean_division_equations; lia. }
  split; [ exact (Hparse d Hd) | ]. split.
  - split.
    + intros E. pose proof (Hparse d Hd) as P. rewrite E, (Hparse d' Hd') in P.
      inversion P as [[E1 E2 E3]].
      assert (0 <= shown_seconds d) by (unfold shown_seconds; lia).
      assert (0 <= shown_seconds d') by (unfold shown_seconds; lia).
      Z.to_euclidean_division_equations. lia.
    + intros E. rewrite (formatDuration_shown d Hd), (formatDuration_shown d' Hd').
      cbv zeta. rewrite E. reflexivity.
  - unfold shown_seconds. intros Hle. Z.to_euclidean_division_equations. lia.
Qed.

(** ** An interval change and the next tick *)

Section IntervalChange.

Context {codec : JSONCodec}.

Lemma click_interval (c : Command) (st : App) :
  minInterval <= IntervalMinutes (cfg st) <= maxInterval ->
  IntervalMinutes (cfg (state_of (click c st)))
  = interval_after c (IntervalMinutes (cfg st))
  /\ minInterval <= interval_after c (IntervalMinutes (cfg st)) <= maxInterval.
Proof.
  intros Hn.
  assert (Hdelta : forall d, command_delta c = Some d ->
            IntervalMinutes (cfg (state_of (click c st)))
            = clamp_interval (IntervalMinutes (cfg st) + d)).
  { intros d Hc. rewrite (click_adjusts c d st Hc).
    rewrite (proj1 (updateInterval_state _ st)).
    cbn [with_IntervalMinutes IntervalMinutes]. unfold Int64.add.
    rewrite (wrap_id _ (menu_sum_in_range c d st Hc Hn)). reflexivity. }
  destruct c; cbn [interval_after command_delta];
    try (split; [ apply Hdelta; reflexivity | apply clamp_interval_range ]).
  - unfold click. rewrite (proj1 (updateInterval_state _ st)).
    cbn [with_IntervalMinutes IntervalMinutes].
    unfold clamp_interval, defaultInterval, minInterval, maxInterval. lia.
  - split; [ reflexivity | exact Hn ].
  - split; [ reflexivity | exact Hn ].
Qed.

(** X17.  A change of the interval takes effect at the next tick and does
    not restart the countdown: with nothing showing and the interval in
    [1,1440], a click on any entry but Quit (after which the loop has
    returned and no tick follows) followed by a tick starts a delivery if
    and only if the new interval (the clamped sum for an adjusting entry,
    3 for the reset, the former interval for About) has elapsed since the
    last trigger, which the click left where it was. *)
Theorem interval_change_applies_at_next_tick
  (st : App) (c : Command) (now : Z) :
  c <> mQuit ->
  isMessageShowing st = false ->
  minInterval <= IntervalMinutes (cfg st) <= maxInterval ->
  let n' := interval_after c (IntervalMinutes (cfg st)) in
  let r := run [Click c; Tick now now] st in
  IntervalMinutes (cfg (state_of r)) = n'
  /\ lastTriggeredUnix (state_of r) = lastTriggeredUnix st
  /\ (dispatches (trace_of r) = 1%nat
      <-> n' * GoTime.Minute <= now - lastTriggeredUnix st)
  /\ (dispatches (trace_of r) = 0%nat
      <-> now - lastTriggeredUnix st < n' * GoTime.Minute).
Proof.
  intros _ Hshow Hn n' r.
  destruct (click_interval c st Hn) as [Hc Hn'].
  destruct (click_frame c st) as (Fd & Fs & Fl).
  set (st1 := state_of (click c st)) in *.
  assert (Hshow1 : isMessageShowing st1 = false) by congruence.
  assert (Hn1 : minInterval <= IntervalMinutes (cfg st1) <= maxInterval)
    by (rewrite Hc; exact Hn').
  assert (Hdue : due st1 now <-> n' * GoTime.Minute <= now - lastTriggeredUnix st)
    by (unfold due; rewrite Hc, Fl; reflexivity).
  assert (Htr : trace_of r
                = trace_of (click c st) ++ trace_of (tick now now st1) ++ []).
  { subst r. destruct (run_cons (Click c) [Tick now now] st) as [T1 _].
    destruct (run_cons (Tick now now) [] st1) as [T2 _].
    rewrite T1. cbn [handle]. fold st1. rewrite T2. reflexivity. }
  assert (Hst : state_of r = state_of (tick now now st1)).
  { subst r. rewrite run_two_state. reflexivity. }
  rewrite Htr, Hst, !dispatches_app, Fd. cbn [dispatches].
  rewrite Nat.add_0_r, Nat.add_0_l.
  rewrite tick_cfg, Hc.
  destruct (Z.le_gt_cases (n' * GoTime.Minute) (now - lastTriggeredUnix st))
    as [Hle | Hgt].
  - destruct (tick_is_due now now st1 Hshow1 Hn1 (proj2 Hdue Hle)) as [Es Ed].
    rewrite Es, Ed. cbn [store_showing lastTriggeredUnix].
    split; [ reflexivity | ]. split; [ exact Fl | ].
    split; split; intros H; try reflexivity; try exact Hle;
      try discriminate H; lia.
  - assert (Hnd : ~ due st1 now) by (intros H; apply Hdue in H; lia).
    destruct (tick_not_due now now st1 Hshow1 Hn1 Hnd) as [Es Ed].
    rewrite Es, Ed.
    split; [ reflexivity | ]. split; [ exact Fl | ].
    split; split; intros H; try reflexivity; try exact Hgt;
      try discriminate H; lia.
Qed.

End IntervalChange.

(** ** From the start of the program *)

Section FromStart.

Context {codec : JSONCodec}.

(** X16.  Whatever the settings file holds, the state [onReady] hands to
    the loop has nothing showing, the start time as last trigger and an
    interval in [1,1440]; ticks whose clock is less than that interval past
    the start begin nothing, and the first tick at or past it begins
    exactly one delivery. *)
Theorem first_reminder_one_interval_after_start
  (dk : Disk) (start : Z) (clocks : list Z) (t : Z) :
  Int64.in_range start ->
  let st0 := result_of (onReady start dk) in
  let n := IntervalMinutes (cfg st0) in
  Forall (fun u => u < start + n * GoTime.Minute) clocks ->
  start + n * GoTime.Minute <= t ->
  isMessageShowing st0 = false
  /\ lastTriggeredUnix st0 = start
  /\ minInterval <= n <= maxInterval
  /\ state_of (run (ticks_at clocks) st0) = st0
  /\ dispatches (trace_of (run (ticks_at clocks) st0)) = 0%nat
  /\ dispatches (trace_of (run (ticks_at (clocks ++ [t])) st0)) = 1%nat.
Proof.
  intros Hs st0 n Hearly Hlate.
  assert (E0 : st0 = mkApp (result_of (loadConfig dk)) start false
                       (state_of (loadConfig dk))).
  { subst st0. unfold onReady, bind, gets, ret, result_of, state_of.
    destruct (loadConfig dk) as [[c dk'] tr]. cbn [fst snd].
    unfold GoTime.UnixNano. rewrite (wrap_id start Hs). reflexivity. }
  assert (Hn : minInterval <= n <= maxInterval).
  { subst n. rewrite E0. cbn [cfg]. apply (loadConfig_ok dk). }
  assert (Hshow : isMessageShowing st0 = false) by (rewrite E0; reflexivity).
  assert (Hlast : lastTriggeredUnix st0 = start) by (rewrite E0; reflexivity).
  assert (Hidle : Forall (fun u => ~ due st0 u) clocks).
  { eapply Forall_impl; [ | exact Hearly ]. intros u Hu. cbv beta in Hu.
    unfold due. rewrite Hlast. fold n. lia. }
  destruct (early_ticks_idle clocks st0 Hshow Hn Hidle) as [Es Ed].
  split; [ exact Hshow | ]. split; [ exact Hlast | ]. split; [ exact Hn | ].
  split; [ exact Es | ]. split; [ exact Ed | ].
  unfold ticks_at. rewrite map_app. fold (ticks_at clocks).
  destruct (run_app (ticks_at clocks) (map (fun t => Tick t t) [t]) st0)
    as [Htr _].
  rewrite Htr, dispatches_app, Ed, Es. cbn [map].
  destruct (run_cons (Tick t t) [] st0) as [Htr' _]. rewrite Htr'.
  cbn [handle run]. rewrite dispatches_app.
  assert (Hd : due st0 t) by (unfold due; rewrite Hlast; fold n; lia).
  rewrite (proj2 (tick_is_due t t st0 Hshow Hn Hd)). reflexivity.
Qed.

End FromStart.

(** ** The theorems on the process and the resource files at concrete
       inputs *)

Lemma first_reminder_one_interval_after_start_witness :
  let dk := Sample.disk_of (Some (Sample.text_of Sample.stretch)) in
  let clocks := [1 * GoTime.Second; 299 * GoTime.Second] in
  let t := 300 * GoTime.Second in
  Int64.in_range 0
  /\ Forall (fun u => u < 0 + 5 * GoTime.Minute) clocks
  /\ 0 + 5 * GoTime.Minute <= t
  /\ dispatches
       (trace_of (@run Sample.codec (ticks_at clocks)
                    (result_of (@onReady Sample.codec 0 dk)))) = 0%nat
  /\ dispatches
       (trace_of (@run Sample.codec (ticks_at (clocks ++ [t]))
                    (result_of (@onReady Sample.codec 0 dk)))) = 1%nat.
Proof.
  intros dk clocks t.
  assert (Hs : Int64.in_range 0) by (split; intro E; discriminate E).
  assert (He : Forall (fun u => u < 0 + 5 * GoTime.Minute) clocks)
    by (repeat constructor).
  assert (Hl : 0 + 5 * GoTime.Minute <= t) by (intro E; discriminate E).
  pose proof (@first_reminder_one_interval_after_start Sample.codec dk 0
                clocks t Hs He Hl) as T.
  cbv zeta in T. destruct T as (_ & _ & _ & _ & T5 & T6).
  exact (conj Hs (conj He (conj Hl (conj T5 T6)))).
Defined.

Lemma main_single_instance_witness :
  let first := Process.mkMutexCall 7 false 0 in
  let second := Process.mkMutexCall 8 false 183 in
  Process.create_failed first = false
  /\ Process.last_error first <> 183
  /\ Process.handle first <> 0
  /\ Process.last_error second = 183
  /\ count_occ Bool.bool_dec
       (map Process.is_run (snd (Process.main first))) true = 1%nat
  /\ count_occ Bool.bool_dec
       (map (Process.closes 7) (snd (Process.main first))) true = 1%nat
  /\ count_occ Bool.bool_dec
       (map Process.is_run (snd (Process.main second))) true = 0%nat
  /\ count_occ Bool.bool_dec
       (map (Process.closes 8) (snd (Process.main second))) true = 1%nat.
Proof.
  intros first second.
  assert (H1 : Process.create_failed first = false) by reflexivity.
  assert (H2 : Process.last_error first <> 183) by (intro E; discriminate E).
  assert (H3 : Process.handle first <> 0) by (intro E; discriminate E).
  assert (H4 : Process.last_error second = 183) by reflexivity.
  assert (H5 : Process.handle second <> 0) by (intro E; discriminate E).
  pose proof (main_single_instance first) as T.
  pose proof (main_single_instance second) as U.
  cbv zeta in T, U.
  destruct T as (T1 & _ & T3 & _). destruct U as (_ & U2 & U3 & _).
  refine (conj H1 (conj H2 (conj H3 (conj H4 (conj _ (conj _ (conj _ _))))))).
  - exact (proj2 T1 (conj H1 H2)).
  - exact (T3 H1 H3).
  - exact (proj2 U2 (or_intror H4)).
  - exact (U3 eq_refl H5).
Defined.

Module ResourceWitnesses.

Import Resources.

Lemma sample_targets_distinct : NoDup (map fst sample_targets).
Proof.
  vm_compute.
  repeat (apply NoDup_cons;
          [ cbn; intros H;
            repeat (destruct H as [H | H]; [ discriminate H | ]); exact H
          | ]).
  apply NoDup_nil.
Defined.

Lemma ensure_asks_only_for_its_own_witness :
  let r := @ensureResourceFiles sample_paths sample_env sample_assets
             empty_fs in
  let dir := "C:\Users\me\AppData\Roaming\BetterPosture"%string in
  let license := (dir ++ "\LICENSE.txt")%string in
  In (WriteFile license "GPLv3") (snd r)
  /\ In (MkdirAll dir) (snd r)
  /\ In (license, "GPLv3"%string) sample_targets
  /\ (dir = @config_dir sample_paths sample_env
      \/ dir = (dir ++ "\THIRD_PARTY_LICENSES")%string).
Proof.
  intros r dir license.
  assert (Hw : In (WriteFile license "GPLv3") (snd r))
    by (right; left; reflexivity).
  assert (Hm : In (MkdirAll dir) (snd r)) by (left; reflexivity).
  pose proof (@ResourceFacts.ensure_asks_only_for_its_own sample_paths
                sample_env sample_assets empty_fs) as T.
  cbv zeta in T. destruct T as (T1 & T2 & _).
  refine (conj Hw (conj Hm (conj _ _))).
  - exact (T1 license "GPLv3"%string Hw).
  - exact (T2 dir Hm).
Defined.

Lemma ensure_installs_then_settles_witness :
  let fs1 := fst (@ensureResourceFiles sample_paths sample_env sample_assets
                    empty_fs) in
  NoDup (map fst sample_targets)
  /\ (forall p d, In (p, d) sample_targets -> read_file fs1 p = ReadOk d)
  /\ forallb (fun e => negb (is_write e))
       (snd (@ensureResourceFiles sample_paths sample_env sample_assets fs1))
     = true.
Proof.
  intros fs1.
  pose proof (@ResourceFacts.ensure_installs_then_settles sample_paths
                sample_env sample_assets empty_fs sample_targets_distinct
                (fun p _ => eq_refl)
                (fun p d _ (E : ReadNotExist = ReadFailed d) =>
                   eq_ind ReadNotExist
                     (fun r => match r with ReadNotExist => True | _ => False end)
                     I _ E)) as T.
  cbv zeta in T. destruct T as (T1 & _ & T3).
  exact (conj sample_targets_distinct (conj T1 T3)).
Defined.

Lemma ensure_leaves_good_file_alone_witness :
  let license := fst (hd (EmptyString, EmptyString) sample_targets) in
  let r := @ensureResourceFiles sample_paths sample_env sample_assets
             license_in_place in
  In (license, "GPLv3"%string) sample_targets
  /\ read_file license_in_place license = ReadOk "GPLv3"
  /\ (forall d', ~ In (WriteFile license d') (snd r))
  /\ read_file (fst r) license = ReadOk "GPLv3".
Proof.
  intros license r.
  assert (Hin : In (license, "GPLv3"%string) sample_targets)
    by (left; reflexivity).
  assert (Hr : read_file license_in_place license = ReadOk "GPLv3")
    by reflexivity.
  pose proof (@ResourceFacts.ensure_leaves_good_file_alone sample_paths
                sample_env sample_assets license_in_place license "GPLv3"
                sample_targets_distinct Hin Hr) as T.
  destruct T as (T1 & T2).
  exact (conj Hin (conj Hr (conj T1 T2))).
Defined.

End ResourceWitnesses.

Lemma interval_change_applies_at_next_tick_witness :
  let st := mkApp (mkConfig 60 "Stretch" "Stand up") 0 false
              (Sample.disk_of None) in
  let now := 200 * GoTime.Second in
  isMessageShowing st = false
  /\ minInterval <= IntervalMinutes (cfg st) <= maxInterval
  /\ interval_after mResetDefault 60 * GoTime.Minute <= now - 0
  /\ now - 0 < interval_after mMinus30m 60 * GoTime.Minute
  /\ dispatches
       (trace_of (@run Sample.codec [Click mResetDefault; Tick now now] st))
     = 1%nat
  /\ dispatches
       (trace_of (@run Sample.codec [Click mMinus30m; Tick now now] st))
     = 0%nat.
Proof.
  intros st now.
  assert (Hs : isMessageShowing st = false) by reflexivity.
  assert (Hn : minInterval <= IntervalMinutes (cfg st) <= maxInterval)
    by (split; intro E; discriminate E).
  assert (H1 : interval_after mResetDefault 60 * GoTime.Minute <= now - 0)
    by (intro E; discriminate E).
  assert (H0 : now - 0 < interval_after mMinus30m 60 * GoTime.Minute)
    by reflexivity.
  assert (Q1 : mResetDefault <> mQuit) by (intro E; discriminate E).
  assert (Q2 : mMinus30m <> mQuit) by (intro E; discriminate E).
  pose proof (@interval_change_applies_at_next_tick Sample.codec st
                mResetDefault now Q1 Hs Hn) as T.
  pose proof (@interval_change_applies_at_next_tick Sample.codec st
                mMinus30m now Q2 Hs Hn) as U.
  cbv zeta in T, U.
  destruct T as (_ & _ & T3 & _). destruct U as (_ & _ & _ & U4).
  refine (conj Hs (conj Hn (conj H1 (conj H0 (conj _ _))))).
  - exact (proj2 T3 H1).
  - exact (proj2 U4 H0).
Defined.

Lemma formatDuration_reads_back_witness :
  let d := 3661 * GoTime.Second in
  let d' := 3661 * GoTime.Second + 300000000 in
  Int64.in_range d
  /\ Int64.in_range d'
  /\ d <= d'
  /\ shown_seconds d = shown_seconds d'
  /\ parse_hms (formatDuration d) = Some (1, 1, 1)
  /\ formatDuration d = formatDuration d'
  /\ shown_seconds d <= shown_seconds d'.
Proof.
  intros d d'.
  assert (R1 : Int64.in_range d) by (split; intro E; discriminate E).
  assert (R2 : Int64.in_range d') by (split; intro E; discriminate E).
  assert (L : d <= d') by (intro E; discriminate E).
  assert (S : shown_seconds d = shown_seconds d') by reflexivity.
  pose proof (formatDuration_reads_back d d' R1 R2) as T.
  cbv zeta in T. destruct T as (T1 & T2 & T3).
  refine (conj R1 (conj R2 (conj L (conj S (conj T1 (conj _ _)))))).
  - exact (proj2 T2 S).
  - exact (T3 L).
Defined.

(** The file
    [{"interval_minutes":9223372036854775808,"reminder_title":"Stretch","reminder_message":"Stand up"}]
    is JSON and its interval is out of [1,1440], but the numeral does not
    fit an [int]: [json.Unmarshal] returns an error, and [loadConfig] takes
    the branch of lines 204-210 before any clamping.  It returns the
    default configuration: the interval is 3, not 1440, and the title and
    the message of the file are gone. *)
Lemma loadConfig_rejects_json_interval_beyond_int :
  let data := GoJson.render GoJson.beyond_int in
  let r := @loadConfig GoJson.codec (mkDisk (Some data) true) in
  GoJson.member "interval_minutes" GoJson.beyond_int
  = Some (GoJson.Int (2 ^ 63))
  /\ maxInterval < 2 ^ 63
  /\ clamp_interval (2 ^ 63) = 1440
  /\ GoJson.member "reminder_title" GoJson.beyond_int
     = Some (GoJson.Str "Stretch")
  /\ GoJson.decode GoJson.beyond_int = None
  /\ @json_Unmarshal GoJson.codec data = None
  /\ result_of r = mkConfig 3 "Posture Reminder" "Time to check your posture!"
  /\ IntervalMinutes (result_of r) <> clamp_interval (2 ^ 63)
  /\ ReminderTitle (result_of r) <> "Stretch"%string.
Proof.
  cbv zeta.
  assert (E : result_of (@loadConfig GoJson.codec
                           (mkDisk (Some (GoJson.render GoJson.beyond_int))
                              true))
              = mkConfig 3 "Posture Reminder" "Time to check your posture!")
    by (vm_compute; reflexivity).
  rewrite E.
  refine (conj eq_refl (conj eq_refl (conj eq_refl (conj eq_refl
            (conj eq_refl (conj _ (conj eq_refl (conj _ _)))))))).
  - vm_compute. reflexivity.
  - vm_compute. discriminate.
  - cbn [ReminderTitle]. discriminate.
Qed.

(** The same decoder on an interval that fits an [int]: the file
    [{"interval_minutes":99999}] is decoded, clamped to 1440 and saved. *)
Example load_99999_as_decoded_by_go :
  let data := GoJson.render GoJson.far_out in
  let r := @loadConfig GoJson.codec (mkDisk (Some data) true) in
  @json_Unmarshal GoJson.codec data = Some (mkConfig 99999 "" "")
  /\ result_of r = mkConfig 1440 "Posture Reminder" "Time to check your posture!"
  /\ settings (state_of r) = Some (Sample.text_of (result_of r)).
Proof. vm_compute. repeat split. Qed.
